(** * flight-booking-automation: the Lambda handlers, embedded and verified

    The repository holds one AWS Lambda handler in two revisions:
    - [src/index.ts]: navigate, locate the booking component, capture a
      screenshot and upload it to S3 (module [Index] below);
    - the revision that also runs the booking-form validation battery and
      reports one [TestResult] per step (module [Validated] below).

    Both are single [async] functions whose control flow is a
    [try]/[catch]/[finally] around a sequence of awaited calls to external
    collaborators (filesystem, Chromium, Playwright, S3, the clock).  They
    are embedded in a state-and-exception monad: the state holds the
    handler's [let] variables, the number of clock readings taken so far and
    the log of collaborator calls; an exception leaves the state as it was
    when it was thrown, as in JavaScript.  What the collaborators answer is
    given by a [World].

    The helper [ensureDirectoriesExist] of [src/utils/index.ts] and the
    constants of [src/utils/constants.ts] are embedded with them.  The
    deployment script [scripts/deploy-to-ecr.js] is embedded on its own
    (module [Deploy]), with a third way for a statement to end: the end
    of the process.

    What the model takes for granted:
    - a collaborator that fails throws an [Error] object, so that reading
      [error.message] in a [catch] does not itself throw;
    - [Date.now()], [console.log], [console.error], [Array.prototype.push]
      and [JSON.stringify] of the report do not throw;
    - the numbers of the inbound event are integers, strings are
      sequences of bytes;
    - what a collaborator answers does not depend on the calls made
      before. *)

From Stdlib Require Import ZArith Ascii String List Lia.
From stdpp Require Import base strings gmap list pretty.

Local Open Scope Z_scope.
Local Open Scope string_scope.
Local Open Scope list_scope.

(** ** JavaScript values the handlers manipulate *)

(** A thrown value.  Every collaborator of the handlers throws [Error]
    objects; the handlers only ever read their [message]. *)
Module Error.
Record t := mk { message : string }.
End Error.

#[local] Set Warnings "-register-all".

(** JSON documents: the inbound event and the report the handler sends
    back.  Numbers are the integers the handlers compute with. *)
Inductive Json :=
| JNull
| JBool (b : bool)
| JNum (n : Z)
| JStr (s : string)
| JArr (items : list Json)
| JObj (fields : list (string * Json)).

(** The double quote and the backslash, as characters. *)
Definition dquote : ascii := ascii_of_nat 34.
Definition backslash : ascii := ascii_of_nat 92.
Definition q : string := String dquote EmptyString.

Definition hex_digit (n : N) : ascii :=
  ascii_of_N (if (n <? 10)%N then 48 + n else 87 + n)%N.

(** [JSON.stringify]'s quoting of one character of a string. *)
Definition escape_char (c : ascii) : string :=
  let n := N_of_ascii c in
  if (n =? 34)%N then String backslash (String dquote EmptyString)
  else if (n =? 92)%N then String backslash (String backslash EmptyString)
  else if (n =? 8)%N then String backslash "b"
  else if (n =? 9)%N then String backslash "t"
  else if (n =? 10)%N then String backslash "n"
  else if (n =? 12)%N then String backslash "f"
  else if (n =? 13)%N then String backslash "r"
  else if (n <? 32)%N then
    String backslash
      (String "u" (String "0" (String "0"
        (String (hex_digit (n / 16)) (String (hex_digit (n mod 16)) EmptyString)))))
  else String c EmptyString.

Fixpoint escape (s : string) : string :=
  match s with
  | EmptyString => EmptyString
  | String c s' => escape_char c +:+ escape s'
  end.

Definition quote (s : string) : string := q +:+ escape s +:+ q.

(** [parts.join(sep)]. *)
Fixpoint join (sep : string) (parts : list string) : string :=
  match parts with
  | [] => ""
  | [x] => x
  | x :: rest => x +:+ sep +:+ join sep rest
  end.

(** [JSON.stringify] without indentation. *)
Fixpoint JSON_stringify (j : Json) : string :=
  match j with
  | JNull => "null"
  | JBool true => "true"
  | JBool false => "false"
  | JNum n => pretty n
  | JStr s => quote s
  | JArr items => "[" +:+ join "," (map JSON_stringify items) +:+ "]"
  | JObj fields =>
      "{" +:+
      join "," (map (fun '(k, v) => quote k +:+ ":" +:+ JSON_stringify v) fields)
      +:+ "}"
  end.

(** [sub] occurs in [s]. *)
Definition contains (s sub : string) : Prop :=
  exists before after, s = before +:+ sub +:+ after.

(** Property access on a JSON object. *)
Definition Json_field (k : string) (j : Json) : option Json :=
  match j with
  | JObj fields => snd <$> List.find (fun kv => bool_decide (fst kv = k)) fields
  | _ => None
  end.

(** A nullable string, as [JSON.stringify] sees it. *)
Definition Json_nullable (o : option string) : Json :=
  match o with
  | Some s => JStr s
  | None => JNull
  end.

(** [a || b] on an environment variable: the empty string is falsy. *)
Definition or_default (a : option string) (b : string) : string :=
  match a with
  | Some s => if bool_decide (s = "") then b else s
  | None => b
  end.

(** The comma operator: the left operand is evaluated and discarded. *)
Definition comma {A B : Type} (a : A) (b : B) : B := b.

(** [s.replace(/[:.]/g, "-")]. *)
Definition replace_colon_period (c : ascii) : ascii :=
  if bool_decide (c = ":"%char) || bool_decide (c = "."%char) then "-"%char else c.

Fixpoint replace_colons_periods (s : string) : string :=
  match s with
  | EmptyString => EmptyString
  | String c s' => String (replace_colon_period c) (replace_colons_periods s')
  end.

(** ** The collaborators *)

(** What a call to a collaborator does: it throws ([inl]) or returns. *)
Definition Outcome (A : Type) : Type := Error.t + A.

(** The parameters of an S3 [PutObjectCommand]. *)
Record PutObjectCommand := {
  Bucket : string;
  Key : string;
  Body : string;
  ContentType : string
}.

(** An argument of [console.log] / [console.error]. *)
Inductive LogArg :=
| LText (text : string)
| LError (error : Error.t)
| LStack (error : Error.t).

(** The calls the handlers make across their boundary, with their
    arguments. *)
Inductive Call :=
| fs_mkdir (dir : string)
| fs_chmod (dir : string) (mode : Z)
| fs_access (path : string)
| fs_readFile (path : string)
| chromium_executablePath
| playwright_launch (args : list string) (executablePath : string)
| browser_newContext (viewport : Z * Z) (userAgent : string)
| context_newPage
| page_setDefaultNavigationTimeout (timeout : Z)
| page_goto (url : string) (waitUntil : string) (timeout : Z)
| page_waitForSelector (selector : string) (state : string) (timeout : Z)
| page_query (selector : string)
| element_screenshot (path : string)
| s3Client_send (region : option string) (command : PutObjectCommand)
| expect_toBeVisible (selector : string) (timeout : Z)
| expect_toBeEnabled (selector : string) (timeout : Z)
| browser_close
| console_log (args : list LogArg)
| console_error (args : list LogArg).

(** One entry of the call log: the call and, when it threw, the error. *)
Record Event := { call : Call; thrown : option Error.t }.

(** Everything outside the handler: the process environment, the clock
    (its successive readings, in milliseconds) and what each collaborator
    answers when called.  [waitForSelector] and [query] ([page.$]) answer
    [true] for an element handle and [false] for [null]. *)
Module World.
Record t := {
  env : gmap string string;
  clock : nat -> Z;
  toISOString : Z -> string;
  chromium_args : list string;
  mkdir : string -> Outcome unit;
  chmod : string -> Outcome unit;
  access : string -> Outcome unit;
  readFile : string -> Outcome string;
  executablePath : Outcome string;
  launch : Outcome unit;
  newContext : Outcome unit;
  newPage : Outcome unit;
  setDefaultNavigationTimeout : Outcome unit;
  goto : string -> Outcome unit;
  waitForSelector : string -> Outcome bool;
  query : string -> Outcome bool;
  screenshot : Outcome unit;
  send : PutObjectCommand -> Outcome unit;
  toBeVisible : string -> Outcome unit;
  toBeEnabled : string -> Outcome unit;
  close : Outcome unit
}.
End World.

(** ** The monad of the handlers *)

(** [locals]: the handler's [let] variables; [ticks]: how many times the
    clock has been read; [log]: the calls made so far, in order. *)
Record State (L : Type) := mkState {
  locals : L;
  ticks : nat;
  log : list Event
}.
Arguments mkState {L}.
Arguments locals {L}.
Arguments ticks {L}.
Arguments log {L}.

Definition M (L A : Type) : Type := State L -> Outcome A * State L.

Definition ret {L A} (a : A) : M L A := fun s => (inr a, s).

Definition bind {L A B} (c : M L A) (k : A -> M L B) : M L B :=
  fun s =>
    match c s with
    | (inl e, s') => (inl e, s')
    | (inr a, s') => k a s'
    end.

Declare Scope js_scope.
Delimit Scope js_scope with js.
Notation "x <- c1 ;; c2" := (bind c1 (fun x => c2))
  (at level 100, c1 at next level, c2 at level 200, right associativity) : js_scope.
Notation "c1 ;; c2" := (bind c1 (fun _ => c2))
  (at level 100, c2 at level 200, right associativity) : js_scope.
Local Open Scope js_scope.

(** [throw e]. *)
Definition throw {L A} (e : Error.t) : M L A := fun s => (inl e, s).

(** [try { body } catch (error) { handler }]. *)
Definition try_catch {L A} (body : M L A) (handler : Error.t -> M L A) : M L A :=
  fun s =>
    match body s with
    | (inl e, s') => handler e s'
    | (inr a, s') => (inr a, s')
    end.

(** [try { body } finally { final }]: [final] runs on every exit of
    [body]; an error of its own replaces the result of [body]. *)
Definition try_finally {L A} (body : M L A) (final : M L unit) : M L A :=
  fun s =>
    match body s with
    | (r, s') =>
        match final s' with
        | (inl e, s'') => (inl e, s'')
        | (inr _, s'') => (r, s'')
        end
    end.

(** Reading and assigning the [let] variables. *)
Definition get {L} : M L L := fun s => (inr (locals s), s).

Definition modify {L} (f : L -> L) : M L unit :=
  fun s => (inr tt, mkState (f (locals s)) (ticks s) (log s)).

(** [for (const x of xs) { body }]. *)
Fixpoint for_of {L A} (xs : list A) (body : A -> M L unit) : M L unit :=
  match xs with
  | [] => ret tt
  | x :: xs' => body x ;; for_of xs' body
  end.

Definition error_of {A} (o : Outcome A) : option Error.t :=
  match o with
  | inl e => Some e
  | inr _ => None
  end.

(** A call to a collaborator: it is logged with what it did, and its
    outcome is the call's. *)
Definition invoke {L A} (c : Call) (o : Outcome A) : M L A :=
  fun s => (o, mkState (locals s) (ticks s) (log s ++ [{| call := c; thrown := error_of o |}])).

(** [console.log(...)] and [console.error(...)]: they do not throw. *)
Module console.
Definition log {L} (args : list LogArg) : M L unit :=
  invoke (console_log args) (inr tt).
Definition error {L} (args : list LogArg) : M L unit :=
  invoke (console_error args) (inr tt).
End console.

Section Collaborators.
Context {L : Type}.
Variable w : World.t.

(** [Date.now()]. *)
Definition Date_now : M L Z :=
  fun s => (inr (World.clock w (ticks s)), mkState (locals s) (S (ticks s)) (log s)).

(** [new Date().toISOString()]. *)
Definition Date_toISOString : M L string :=
  fun s => (inr (World.toISOString w (World.clock w (ticks s))),
            mkState (locals s) (S (ticks s)) (log s)).

(** [process.env.NAME]. *)
Definition process_env (name : string) : option string := World.env w !! name.

Definition mkdir (dir : string) : M L unit :=
  invoke (fs_mkdir dir) (World.mkdir w dir).
Definition chmod (dir : string) (mode : Z) : M L unit :=
  invoke (fs_chmod dir mode) (World.chmod w dir).
Definition access (path : string) : M L unit :=
  invoke (fs_access path) (World.access w path).
Definition readFile (path : string) : M L string :=
  invoke (fs_readFile path) (World.readFile w path).
Definition executablePath : M L string :=
  invoke chromium_executablePath (World.executablePath w).
Definition launch (args : list string) (path : string) : M L unit :=
  invoke (playwright_launch args path) (World.launch w).
Definition newContext (viewport : Z * Z) (userAgent : string) : M L unit :=
  invoke (browser_newContext viewport userAgent) (World.newContext w).
Definition newPage : M L unit :=
  invoke context_newPage (World.newPage w).
Definition setDefaultNavigationTimeout (timeout : Z) : M L unit :=
  invoke (page_setDefaultNavigationTimeout timeout) (World.setDefaultNavigationTimeout w).
Definition goto (url waitUntil : string) (timeout : Z) : M L unit :=
  invoke (page_goto url waitUntil timeout) (World.goto w url).
Definition waitForSelector (selector state : string) (timeout : Z) : M L bool :=
  invoke (page_waitForSelector selector state timeout) (World.waitForSelector w selector).
Definition query (selector : string) : M L bool :=
  invoke (page_query selector) (World.query w selector).
Definition screenshot (path : string) : M L unit :=
  invoke (element_screenshot path) (World.screenshot w).
Definition send (region : option string) (command : PutObjectCommand) : M L unit :=
  invoke (s3Client_send region command) (World.send w command).
Definition toBeVisible (selector : string) (timeout : Z) : M L unit :=
  invoke (expect_toBeVisible selector timeout) (World.toBeVisible w selector).
Definition toBeEnabled (selector : string) (timeout : Z) : M L unit :=
  invoke (expect_toBeEnabled selector timeout) (World.toBeEnabled w selector).
Definition close : M L unit :=
  invoke browser_close (World.close w).

(** *** [src/utils/constants.ts] *)

Definition BROWSER_ARGS : list string :=
  World.chromium_args w ++
  [ "--disable-gpu";
    "--disable-dev-shm-usage";
    "--disable-setuid-sandbox";
    "--no-sandbox";
    "--single-process";
    "--no-zygote";
    "--ignore-certificate-errors" ].

(** *** [src/utils/index.ts] *)

Definition ensureDirectoriesExist : M L unit :=
  let dirs := ["/tmp"; "/tmp/screenshots"; "/tmp/.cache"] in
  for_of dirs (fun dir =>
    try_catch
      (mkdir dir ;;
       chmod dir 511)
      (fun err =>
         console.log [LText ("Note: Directory " +:+ dir +:+
                      " already exists or couldn't be created: " +:+
                      Error.message err)])).
End Collaborators.

Definition VIEWPORT : Z * Z := (1280, 720).
Definition USER_AGENT : string :=
  "Mozilla/5.0 (Windows NT 10.0; Win64; x64) AppleWebKit/537.36 (KHTML, like Gecko) Chrome/96.0.4664.110 Safari/537.36".
Definition TIMEOUT_NAVIGATION : Z := 60000.
Definition TIMEOUT_SELECTOR : Z := 60000.
Module PARAMETERS.
Definition url : string :=
  "https://flights.aegeanair.com/en/flights-from-istanbul-to-athens".
Definition selector : string :=
  "div[data-em-cmp=" +:+ q +:+ "flights-booking" +:+ q +:+ "]".
End PARAMETERS.

(** The response object of the Lambda proxy integration. *)
Module APIGatewayProxyResult.
Record t := {
  statusCode : Z;
  headers : list (string * string);
  body : string
}.
End APIGatewayProxyResult.

(** ** The handler with the validation battery *)

Inductive Status := SUCCESS | FAILURE.

Record TestResult := {
  name : string;
  status : Status;
  details : option string;
  executionTimeMs : option Z
}.

Definition Status_json (s : Status) : Json :=
  match s with
  | SUCCESS => JStr "SUCCESS"
  | FAILURE => JStr "FAILURE"
  end.

(** A [TestResult] as [JSON.stringify] sees it: absent optional properties
    are left out. *)
Definition TestResult_json (r : TestResult) : Json :=
  JObj ([("name", JStr (name r)); ("status", Status_json (status r))]
        ++ match details r with
           | Some d => [("details", JStr d)]
           | None => []
           end
        ++ match executionTimeMs r with
           | Some t => [("executionTimeMs", JNum t)]
           | None => []
           end).

Module Validated.

(** The [let] variables of [handler]. *)
Record Locals := {
  browser : option unit;
  screenshotUrl : option string;
  statusCode : Z;
  message : string;
  testResults : list TestResult;
  totalExecutionTimeMs : Z
}.

Definition assign_browser (v : option unit) : M Locals unit :=
  modify (fun l => {| browser := v; screenshotUrl := screenshotUrl l;
                      statusCode := statusCode l; message := message l;
                      testResults := testResults l;
                      totalExecutionTimeMs := totalExecutionTimeMs l |}).
Definition assign_screenshotUrl (v : option string) : M Locals unit :=
  modify (fun l => {| browser := browser l; screenshotUrl := v;
                      statusCode := statusCode l; message := message l;
                      testResults := testResults l;
                      totalExecutionTimeMs := totalExecutionTimeMs l |}).
Definition assign_statusCode (v : Z) : M Locals unit :=
  modify (fun l => {| browser := browser l; screenshotUrl := screenshotUrl l;
                      statusCode := v; message := message l;
                      testResults := testResults l;
                      totalExecutionTimeMs := totalExecutionTimeMs l |}).
Definition assign_message (v : string) : M Locals unit :=
  modify (fun l => {| browser := browser l; screenshotUrl := screenshotUrl l;
                      statusCode := statusCode l; message := v;
                      testResults := testResults l;
                      totalExecutionTimeMs := totalExecutionTimeMs l |}).
Definition assign_totalExecutionTimeMs (v : Z) : M Locals unit :=
  modify (fun l => {| browser := browser l; screenshotUrl := screenshotUrl l;
                      statusCode := statusCode l; message := message l;
                      testResults := testResults l;
                      totalExecutionTimeMs := v |}).

(** [testResults.push(r)]. *)
Definition push (r : TestResult) : M Locals unit :=
  modify (fun l => {| browser := browser l; screenshotUrl := screenshotUrl l;
                      statusCode := statusCode l; message := message l;
                      testResults := testResults l ++ [r];
                      totalExecutionTimeMs := totalExecutionTimeMs l |}).

(** A template literal's rendering of [screenshotUrl]. *)
Definition render_nullable (o : option string) : string :=
  match o with
  | Some s => s
  | None => "null"
  end.

Section Handler.
Variable w : World.t.

(** 4.1. Trip type selector (Round-trip/One-way) *)
Definition validate_trip_type_selector : M Locals unit :=
  try_catch
    (let tripTypeSelector := "div.trip-type-selector" in
     toBeVisible w tripTypeSelector TIMEOUT_SELECTOR ;;
     push {| name := "Validate trip type selector"; status := SUCCESS;
             details := Some "Trip type selector is visible.";
             executionTimeMs := None |})
    (fun error =>
       push {| name := "Validate trip type selector"; status := FAILURE;
               details := Some ("Error: " +:+ Error.message error);
               executionTimeMs := None |}).

(** 4.2. Passengers and class selector *)
Definition validate_passengers_selector : M Locals unit :=
  try_catch
    (let passengersSelector := "[data-em-cmp=" +:+ q +:+ "passengers" +:+ q +:+ "]" in
     toBeVisible w passengersSelector TIMEOUT_SELECTOR ;;
     push {| name := "Validate passengers and class selector"; status := SUCCESS;
             details := Some "Passengers and class selector is visible.";
             executionTimeMs := None |})
    (fun error =>
       push {| name := "Validate passengers and class selector"; status := FAILURE;
               details := Some ("Error: " +:+ Error.message error);
               executionTimeMs := None |}).

(** 4.3. Origin and destination fields *)
Definition validate_origin_destination : M Locals unit :=
  try_catch
    (let originField := "input[data-em-cmp=" +:+ q +:+ "origin" +:+ q +:+ "]" in
     let destinationField := "input[data-em-cmp=" +:+ q +:+ "destination" +:+ q +:+ "]" in
     toBeVisible w originField TIMEOUT_SELECTOR ;;
     toBeVisible w destinationField TIMEOUT_SELECTOR ;;
     push {| name := "Validate origin and destination fields"; status := SUCCESS;
             details := Some "Origin and destination fields are visible.";
             executionTimeMs := None |})
    (fun error =>
       push {| name := "Validate origin and destination fields"; status := FAILURE;
               details := Some ("Error: " +:+ Error.message error);
               executionTimeMs := None |}).

(** 4.4. Departure and return date selectors *)
Definition validate_date_selectors : M Locals unit :=
  try_catch
    (let departureDateSelector := "[data-em-cmp=" +:+ q +:+ "departure-date" +:+ q +:+ "]" in
     toBeVisible w departureDateSelector TIMEOUT_SELECTOR ;;
     let returnDateSelector := "[data-em-cmp=" +:+ q +:+ "return-date" +:+ q +:+ "]" in
     toBeVisible w returnDateSelector TIMEOUT_SELECTOR ;;
     push {| name := "Validate date selectors"; status := SUCCESS;
             details := Some "Departure and return date selectors are visible.";
             executionTimeMs := None |})
    (fun error =>
       push {| name := "Validate date selectors"; status := FAILURE;
               details := Some ("Error: " +:+ Error.message error);
               executionTimeMs := None |}).

(** 4.5. Search button *)
Definition validate_search_button : M Locals unit :=
  try_catch
    (let searchButton := "button[data-em-cmp=" +:+ q +:+ "search" +:+ q +:+ "]" in
     toBeVisible w searchButton TIMEOUT_SELECTOR ;;
     toBeEnabled w searchButton TIMEOUT_SELECTOR ;;
     push {| name := "Validate search button"; status := SUCCESS;
             details := Some "Search button is visible and enabled.";
             executionTimeMs := None |})
    (fun error =>
       push {| name := "Validate search button"; status := FAILURE;
               details := Some ("Error: " +:+ Error.message error);
               executionTimeMs := None |}).

(** The body of the outer [try]. *)
Definition pipeline : M Locals unit :=
  startTime <- Date_now w ;;
  (* 1. Ensure necessary directories exist *)
  ensureDirectoriesExist w ;;
  (* 2. Launch browser with configuration suitable for Lambda *)
  path <- executablePath w ;;
  b <- launch w (BROWSER_ARGS w) path ;;
  assign_browser (Some b) ;;
  newContext w VIEWPORT USER_AGENT ;;
  newPage w ;;
  setDefaultNavigationTimeout w TIMEOUT_NAVIGATION ;;
  (* Step 1: Navigate to the Aegean Air page *)
  navigateStartTime <- Date_now w ;;
  goto w PARAMETERS.url "domcontentloaded" TIMEOUT_NAVIGATION ;;
  navigateEndTime <- Date_now w ;;
  push {| name := "Navigate to Aegean Air website"; status := SUCCESS;
          details := Some ("Navigated to " +:+ PARAMETERS.url);
          executionTimeMs := Some (navigateEndTime - navigateStartTime) |} ;;
  (* Step 2: Locate the booking component *)
  locateStartTime <- Date_now w ;;
  bookingComponent <- waitForSelector w PARAMETERS.selector "visible" TIMEOUT_SELECTOR ;;
  locateEndTime <- Date_now w ;;
  push {| name := "Locate the booking component"; status := SUCCESS;
          details := Some ("Component '" +:+ PARAMETERS.selector +:+ "' found.");
          executionTimeMs := Some (locateEndTime - locateStartTime) |} ;;
  (if negb bookingComponent
   then throw (Error.mk "Flight booking component not found.")
   else ret tt) ;;
  (* Step 3: Capture a screenshot of the component *)
  screenshotStartTime <- Date_now w ;;
  let screenshotPath := "/tmp/screenshots/flight-booking-component.png" in
  screenshot w screenshotPath ;;
  iso <- Date_toISOString w ;;
  let timestamp := replace_colons_periods iso in
  let filename := "aegean-flight-booking-" +:+ timestamp +:+ ".png" in
  let bucketName :=
    or_default (process_env w "AWS_S3_BUCKET") "technical-playwright-result" in
  fileContent <- readFile w screenshotPath ;;
  let region := process_env w "AWS_REGION" in
  let params := {| Bucket := bucketName;
                   Key := "screenshots/" +:+ filename;
                   Body := fileContent;
                   ContentType := "image/png" |} in
  send w region params ;;
  assign_screenshotUrl
    (Some ("https://" +:+ bucketName +:+ ".s3.amazonaws.com/screenshots/" +:+ filename)) ;;
  screenshotEndTime <- Date_now w ;;
  l <- get ;;
  push {| name := "Capture a screenshot of the component"; status := SUCCESS;
          details := Some ("Screenshot uploaded to S3: " +:+
                           render_nullable (screenshotUrl l));
          executionTimeMs := Some (screenshotEndTime - screenshotStartTime) |} ;;
  (* Step 4: Validate the booking form elements *)
  validateFormStartTime <- Date_now w ;;
  validate_trip_type_selector ;;
  validate_passengers_selector ;;
  validate_origin_destination ;;
  validate_date_selectors ;;
  validate_search_button ;;
  validateFormEndTime <- Date_now w ;;
  push {| name := "Booking form validation"; status := SUCCESS;
          details := Some "All booking form validations have been completed.";
          executionTimeMs := Some (validateFormEndTime - validateFormStartTime) |} ;;
  endTime <- Date_now w ;;
  assign_totalExecutionTimeMs (endTime - startTime).

(** The outer [catch]. *)
Definition fatal (error : Error.t) : M Locals unit :=
  console.error [LText "Error:"; LError error] ;;
  assign_statusCode 500 ;;
  assign_message ("Fatal error: " +:+ Error.message error) ;;
  push {| name := "Fatal error during execution"; status := FAILURE;
          details := Some (Error.message error);
          executionTimeMs := None |}.

(** The [finally]. *)
Definition release : M Locals unit :=
  l <- get ;;
  match browser l with
  | Some _ =>
      try_catch (close w)
        (fun closeError => console.error [LText "Error closing browser:"; LError closeError])
  | None => ret tt
  end.

(** The object handed to [JSON.stringify]. *)
Definition report (l : Locals) (timestamp : string) (event : Json) : Json :=
  JObj [ ("message", JStr (message l));
         ("timestamp", JStr timestamp);
         ("screenshotUrl", Json_nullable (screenshotUrl l));
         ("event", event);
         ("totalExecutionTimeMs", JNum (totalExecutionTimeMs l));
         ("testResults", JArr (TestResult_json <$> testResults l)) ].

Definition handler_body (event : Json) : M Locals APIGatewayProxyResult.t :=
  try_finally (try_catch pipeline fatal) release ;;
  (* Create the final response with detailed test results *)
  l <- get ;;
  timestamp <- Date_toISOString w ;;
  ret {| APIGatewayProxyResult.statusCode := statusCode l;
         APIGatewayProxyResult.headers := [("Content-Type", "application/json")];
         APIGatewayProxyResult.body := JSON_stringify (report l timestamp event) |}.

(** [handler(event)]: the body run from the declarations of its [let]
    variables. *)
Definition declarations : Locals :=
  {| browser := None; screenshotUrl := None; statusCode := 200;
     message := "Success"; testResults := [];
     totalExecutionTimeMs := 0 |}.

Definition handler (event : Json) : Outcome APIGatewayProxyResult.t * State Locals :=
  handler_body event (mkState declarations 0 []).

(** What a run leaves behind: the final values of the [let] variables
    and the collaborator calls in the order they were made. *)
Definition final (event : Json) : Locals := locals (snd (handler event)).
Definition calls (event : Json) : list Event := log (snd (handler event)).
End Handler.
End Validated.


(** ** The handler of [src/index.ts] *)

Module Index.

(** The [let] variables of [handler]. *)
Record Locals := {
  browser : option unit;
  screenshotUrl : option string;
  statusCode : Z;
  message : string
}.

Definition assign_browser (v : option unit) : M Locals unit :=
  modify (fun l => {| browser := v; screenshotUrl := screenshotUrl l;
                      statusCode := statusCode l; message := message l |}).
Definition assign_screenshotUrl (v : option string) : M Locals unit :=
  modify (fun l => {| browser := browser l; screenshotUrl := v;
                      statusCode := statusCode l; message := message l |}).
Definition assign_statusCode (v : Z) : M Locals unit :=
  modify (fun l => {| browser := browser l; screenshotUrl := screenshotUrl l;
                      statusCode := v; message := message l |}).
Definition assign_message (v : string) : M Locals unit :=
  modify (fun l => {| browser := browser l; screenshotUrl := screenshotUrl l;
                      statusCode := statusCode l; message := v |}).

Section Handler.
Variable w : World.t.

(** Generate unique filename with timestamp. *)
Definition filename_of (timestamp : string) : string :=
  comma (process_env w "PREFIX") "" +:+ "-aegean-flight-booking-" +:+ timestamp +:+ ".png".

(** The body of the [try]. *)
Definition pipeline : M Locals unit :=
  (* Ensure necessary directories exist *)
  ensureDirectoriesExist w ;;
  (* Launch browser with configuration suitable for Lambda *)
  path <- executablePath w ;;
  b <- launch w (BROWSER_ARGS w) path ;;
  assign_browser (Some b) ;;
  newContext w VIEWPORT USER_AGENT ;;
  newPage w ;;
  (* Configure timeouts longer for Lambda environment *)
  setDefaultNavigationTimeout w TIMEOUT_NAVIGATION ;;
  (* Navigate to Aegean Air page *)
  goto w PARAMETERS.url "domcontentloaded" TIMEOUT_NAVIGATION ;;
  (* Wait for the specific selector to be visible *)
  waitForSelector w PARAMETERS.selector "visible" TIMEOUT_SELECTOR ;;
  (* Take screenshot of the specific element *)
  element <- query w PARAMETERS.selector ;;
  (if negb element
   then throw (Error.mk "Flight booking component not found")
   else ret tt) ;;
  let screenshotPath := "/tmp/screenshots/flight-booking-component.png" in
  screenshot w screenshotPath ;;
  (* Generate unique filename with timestamp *)
  iso <- Date_toISOString w ;;
  let timestamp := replace_colons_periods iso in
  let filename := filename_of timestamp in
  (* Verify that the file exists before uploading *)
  try_catch
    (access w screenshotPath)
    (fun error =>
       console.error [LText ("Error accessing screenshot file: " +:+ Error.message error)] ;;
       throw (Error.mk ("Screenshot file not found at " +:+ screenshotPath))) ;;
  (* Initialize S3 client *)
  let region := or_default (process_env w "AWS_REGION") "us-east-2" in
  let bucketName :=
    or_default (process_env w "AWS_S3_BUCKET") "technical-playwright-result" in
  (* Upload screenshot to S3 *)
  fileContent <- readFile w screenshotPath ;;
  let params := {| Bucket := bucketName;
                   Key := "screenshots/" +:+ filename;
                   Body := fileContent;
                   ContentType := "image/png" |} in
  send w (Some region) params ;;
  (* Generate URL for the uploaded screenshot *)
  assign_screenshotUrl
    (Some ("https://" +:+ bucketName +:+ ".s3.amazonaws.com/screenshots/" +:+ filename)).

(** The [catch]. *)
Definition fatal (error : Error.t) : M Locals unit :=
  console.error [LText "Error:"; LError error] ;;
  console.error [LText "Stack trace:"; LStack error] ;;
  assign_statusCode 500 ;;
  assign_message ("Error: " +:+ Error.message error).

(** The [finally]: close browser if it was opened. *)
Definition release : M Locals unit :=
  l <- get ;;
  match browser l with
  | Some _ =>
      try_catch (close w)
        (fun closeError => console.error [LText "Error closing browser:"; LError closeError])
  | None => ret tt
  end.

(** The object handed to [JSON.stringify]. *)
Definition report (l : Locals) (timestamp : string) (event : Json) : Json :=
  JObj [ ("message", JStr (message l));
         ("timestamp", JStr timestamp);
         ("screenshotUrl", Json_nullable (screenshotUrl l));
         ("event", event) ].

Definition handler_body (event : Json) : M Locals APIGatewayProxyResult.t :=
  try_finally (try_catch pipeline fatal) release ;;
  (* Create response with URL of the screenshot if it was successful *)
  l <- get ;;
  timestamp <- Date_toISOString w ;;
  ret {| APIGatewayProxyResult.statusCode := statusCode l;
         APIGatewayProxyResult.headers := [("Content-Type", "application/json")];
         APIGatewayProxyResult.body := JSON_stringify (report l timestamp event) |}.

(** [handler(event)]: the body run from the declarations of its [let]
    variables. *)
Definition declarations : Locals :=
  {| browser := None; screenshotUrl := None; statusCode := 200;
     message := "Success" |}.

Definition handler (event : Json) : Outcome APIGatewayProxyResult.t * State Locals :=
  handler_body event (mkState declarations 0 []).

Definition final (event : Json) : Locals := locals (snd (handler event)).
Definition calls (event : Json) : list Event := log (snd (handler event)).
End Handler.
End Index.

(** ** Worlds to run the handlers in *)

(** A world given by what the environment holds and what the calls that
    matter below answer; the filesystem and the browser set-up answer, the
    clock advances by 50 ms a reading. *)
Definition staged (env : gmap string string)
    (launch goto : Outcome unit) (waitForSelector : Outcome bool)
    (screenshot send : Outcome unit)
    (toBeVisible toBeEnabled : string -> Outcome unit)
    (close : Outcome unit) : World.t := {|
  World.env := env;
  World.clock := fun n => 1705314645123 + 50 * Z.of_nat n;
  World.toISOString := fun _ => "2024-01-15T10:30:45.123Z";
  World.chromium_args := ["--headless"];
  World.mkdir := fun _ => inr tt;
  World.chmod := fun _ => inr tt;
  World.access := fun _ => inr tt;
  World.readFile := fun _ => inr "PNG";
  World.executablePath := inr "/tmp/chromium";
  World.launch := launch;
  World.newContext := inr tt;
  World.newPage := inr tt;
  World.setDefaultNavigationTimeout := inr tt;
  World.goto := fun _ => goto;
  World.waitForSelector := fun _ => waitForSelector;
  World.query := fun _ => inr true;
  World.screenshot := screenshot;
  World.send := fun _ => send;
  World.toBeVisible := toBeVisible;
  World.toBeEnabled := toBeEnabled;
  World.close := close
|}.

Definition ok : Outcome unit := inr tt.
Definition throws {A} (text : string) : Outcome A := inl (Error.mk text).

(** Every collaborator answers. *)
Definition calm : World.t :=
  staged ∅ ok ok (inr true) ok ok (fun _ => ok) (fun _ => ok) ok.

(** The page does not load. *)
Definition no_page : World.t :=
  staged ∅ ok (throws "Timeout 60000ms exceeded.") (inr true) ok ok
    (fun _ => ok) (fun _ => ok) ok.

(** The upload is refused. *)
Definition no_upload : World.t :=
  staged ∅ ok ok (inr true) ok (throws "Access Denied")
    (fun _ => ok) (fun _ => ok) ok.

(** The search button is visible but disabled. *)
Definition search_disabled : World.t :=
  staged ∅ ok ok (inr true) ok ok
    (fun _ => ok) (fun _ => throws "Locator expected to be enabled") ok.

(** The origin field is missing. *)
Definition no_origin : World.t :=
  staged ∅ ok ok (inr true) ok ok
    (fun selector =>
       if bool_decide (selector = "input[data-em-cmp=" +:+ q +:+ "origin" +:+ q +:+ "]")
       then throws "Locator expected to be visible"
       else ok)
    (fun _ => ok) ok.

(** The browser does not close. *)
Definition stuck_browser : World.t :=
  staged ∅ ok ok (inr true) ok ok (fun _ => ok) (fun _ => ok)
    (throws "Target closed").

Definition no_event : Json := JObj [].

(** [w] with another answer of [browser.close()]. *)
Definition with_close (o : Outcome unit) (w : World.t) : World.t := {|
  World.env := World.env w;
  World.clock := World.clock w;
  World.toISOString := World.toISOString w;
  World.chromium_args := World.chromium_args w;
  World.mkdir := World.mkdir w;
  World.chmod := World.chmod w;
  World.access := World.access w;
  World.readFile := World.readFile w;
  World.executablePath := World.executablePath w;
  World.launch := World.launch w;
  World.newContext := World.newContext w;
  World.newPage := World.newPage w;
  World.setDefaultNavigationTimeout := World.setDefaultNavigationTimeout w;
  World.goto := World.goto w;
  World.waitForSelector := World.waitForSelector w;
  World.query := World.query w;
  World.screenshot := World.screenshot w;
  World.send := World.send w;
  World.toBeVisible := World.toBeVisible w;
  World.toBeEnabled := World.toBeEnabled w;
  World.close := o
|}.

(** [w] with another process environment. *)
Definition with_env (env : gmap string string) (w : World.t) : World.t := {|
  World.env := env;
  World.clock := World.clock w;
  World.toISOString := World.toISOString w;
  World.chromium_args := World.chromium_args w;
  World.mkdir := World.mkdir w;
  World.chmod := World.chmod w;
  World.access := World.access w;
  World.readFile := World.readFile w;
  World.executablePath := World.executablePath w;
  World.launch := World.launch w;
  World.newContext := World.newContext w;
  World.newPage := World.newPage w;
  World.setDefaultNavigationTimeout := World.setDefaultNavigationTimeout w;
  World.goto := World.goto w;
  World.waitForSelector := World.waitForSelector w;
  World.query := World.query w;
  World.screenshot := World.screenshot w;
  World.send := World.send w;
  World.toBeVisible := World.toBeVisible w;
  World.toBeEnabled := World.toBeEnabled w;
  World.close := World.close w
|}.

(** ** Reading a run *)

(** Classes of calls. *)
Definition is_probe (c : Call) : bool :=
  match c with
  | expect_toBeVisible _ _ | expect_toBeEnabled _ _ => true
  | _ => false
  end.

Definition is_close (c : Call) : bool :=
  match c with
  | browser_close => true
  | _ => false
  end.

Definition is_launch (c : Call) : bool :=
  match c with
  | playwright_launch _ _ => true
  | _ => false
  end.

Definition is_goto (c : Call) : bool :=
  match c with
  | page_goto _ _ _ => true
  | _ => false
  end.

Definition is_waitForSelector (c : Call) : bool :=
  match c with
  | page_waitForSelector _ _ _ => true
  | _ => false
  end.

Definition is_capture (c : Call) : bool :=
  match c with
  | element_screenshot _ | fs_readFile _ | s3Client_send _ _ => true
  | _ => false
  end.

(** The calls of [ensureDirectoriesExist] and nothing else. *)
Definition is_setup (c : Call) : bool :=
  match c with
  | fs_mkdir _ | fs_chmod _ _ | console_log _ => true
  | _ => false
  end.

(** [returned p tr]: a call of class [p] was made and returned;
    [failed p tr]: a call of class [p] was made and threw. *)
Definition is_thrown (ev : Event) : bool :=
  match thrown ev with
  | Some _ => true
  | None => false
  end.

Fixpoint called (p : Call -> bool) (tr : list Event) : bool :=
  match tr with
  | [] => false
  | ev :: tr' => p (call ev) || called p tr'
  end.

Fixpoint returned (p : Call -> bool) (tr : list Event) : bool :=
  match tr with
  | [] => false
  | ev :: tr' => (p (call ev) && negb (is_thrown ev)) || returned p tr'
  end.

Fixpoint failed (p : Call -> bool) (tr : list Event) : bool :=
  match tr with
  | [] => false
  | ev :: tr' => (p (call ev) && is_thrown ev) || failed p tr'
  end.

(** The calls of class [p], in order. *)
Fixpoint select (p : Call -> bool) (tr : list Event) : list Event :=
  match tr with
  | [] => []
  | ev :: tr' => if p (call ev) then ev :: select p tr' else select p tr'
  end.

(** What [ensureDirectoriesExist] logs for one directory, and for the
    three of them. *)
Definition logged (c : Call) (e : option Error.t) : Event :=
  {| call := c; thrown := e |}.

Definition note (dir : string) (err : Error.t) : Event :=
  logged (console_log [LText ("Note: Directory " +:+ dir +:+
                              " already exists or couldn't be created: " +:+
                              Error.message err)]) None.

Definition dir_log (w : World.t) (dir : string) : list Event :=
  match World.mkdir w dir with
  | inl e => [logged (fs_mkdir dir) (Some e); note dir e]
  | inr _ =>
      match World.chmod w dir with
      | inl e => [logged (fs_mkdir dir) None; logged (fs_chmod dir 511) (Some e); note dir e]
      | inr _ => [logged (fs_mkdir dir) None; logged (fs_chmod dir 511) None]
      end
  end.

Definition setup_log (w : World.t) : list Event :=
  dir_log w "/tmp" ++ dir_log w "/tmp/screenshots" ++ dir_log w "/tmp/.cache".

(** *** The battery as a table

    Each of the five hand-written [try] blocks of step 4 runs its probes in
    order up to the first that throws and pushes one result.  [battery]
    lists them: name, text on success, probes. *)

Definition trip_type : string := "div.trip-type-selector".
Definition passengers : string := "[data-em-cmp=" +:+ q +:+ "passengers" +:+ q +:+ "]".
Definition origin : string := "input[data-em-cmp=" +:+ q +:+ "origin" +:+ q +:+ "]".
Definition destination : string := "input[data-em-cmp=" +:+ q +:+ "destination" +:+ q +:+ "]".
Definition departure_date : string := "[data-em-cmp=" +:+ q +:+ "departure-date" +:+ q +:+ "]".
Definition return_date : string := "[data-em-cmp=" +:+ q +:+ "return-date" +:+ q +:+ "]".
Definition search : string := "button[data-em-cmp=" +:+ q +:+ "search" +:+ q +:+ "]".

Record Check := {
  check_name : string;
  check_passed : string;
  check_probes : list (Call * Outcome unit)
}.

Definition visible (w : World.t) (selector : string) : Call * Outcome unit :=
  (expect_toBeVisible selector TIMEOUT_SELECTOR, World.toBeVisible w selector).

Definition enabled (w : World.t) (selector : string) : Call * Outcome unit :=
  (expect_toBeEnabled selector TIMEOUT_SELECTOR, World.toBeEnabled w selector).

Definition check_trip_type (w : World.t) : Check :=
  {| check_name := "Validate trip type selector";
     check_passed := "Trip type selector is visible.";
     check_probes := [visible w trip_type] |}.

Definition check_passengers (w : World.t) : Check :=
  {| check_name := "Validate passengers and class selector";
     check_passed := "Passengers and class selector is visible.";
     check_probes := [visible w passengers] |}.

Definition check_origin_destination (w : World.t) : Check :=
  {| check_name := "Validate origin and destination fields";
     check_passed := "Origin and destination fields are visible.";
     check_probes := [visible w origin; visible w destination] |}.

Definition check_dates (w : World.t) : Check :=
  {| check_name := "Validate date selectors";
     check_passed := "Departure and return date selectors are visible.";
     check_probes := [visible w departure_date; visible w return_date] |}.

Definition check_search_button (w : World.t) : Check :=
  {| check_name := "Validate search button";
     check_passed := "Search button is visible and enabled.";
     check_probes := [visible w search; enabled w search] |}.

Definition battery (w : World.t) : list Check :=
  [ check_trip_type w; check_passengers w; check_origin_destination w;
    check_dates w; check_search_button w ].

(** The probes of the battery, in the order of the source. *)
Definition PROBES : list Call :=
  [ expect_toBeVisible trip_type TIMEOUT_SELECTOR;
    expect_toBeVisible passengers TIMEOUT_SELECTOR;
    expect_toBeVisible origin TIMEOUT_SELECTOR;
    expect_toBeVisible destination TIMEOUT_SELECTOR;
    expect_toBeVisible departure_date TIMEOUT_SELECTOR;
    expect_toBeVisible return_date TIMEOUT_SELECTOR;
    expect_toBeVisible search TIMEOUT_SELECTOR;
    expect_toBeEnabled search TIMEOUT_SELECTOR ].

(** The first error among the probes of a check, if any. *)
Fixpoint first_thrown (probes : list (Call * Outcome unit)) : option Error.t :=
  match probes with
  | [] => None
  | (_, inl e) :: _ => Some e
  | (_, inr _) :: rest => first_thrown rest
  end.

(** The probes a check gets to make, in order: up to the first that
    throws. *)
Fixpoint probed (probes : list (Call * Outcome unit)) : list Event :=
  match probes with
  | [] => []
  | (c, inl e) :: _ => [{| call := c; thrown := Some e |}]
  | (c, inr _) :: rest => {| call := c; thrown := None |} :: probed rest
  end.

(** The one result a check pushes. *)
Definition verdict (c : Check) : TestResult :=
  match first_thrown (check_probes c) with
  | None =>
      {| name := check_name c; status := SUCCESS;
         details := Some (check_passed c); executionTimeMs := None |}
  | Some e =>
      {| name := check_name c; status := FAILURE;
         details := Some ("Error: " +:+ Error.message e); executionTimeMs := None |}
  end.


(** The state a check leaves: its verdict pushed, its probes logged. *)
Definition checked (c : Check) (s : State Validated.Locals) : State Validated.Locals :=
  mkState
    {| Validated.browser := Validated.browser (locals s);
       Validated.screenshotUrl := Validated.screenshotUrl (locals s);
       Validated.statusCode := Validated.statusCode (locals s);
       Validated.message := Validated.message (locals s);
       Validated.testResults := Validated.testResults (locals s) ++ [verdict c];
       Validated.totalExecutionTimeMs := Validated.totalExecutionTimeMs (locals s) |}
    (ticks s)
    (log s ++ probed (check_probes c)).

(** The entry the outer [catch] pushes, and the entry that closes
    step 4. *)
Definition fatal_entry (e : Error.t) : TestResult :=
  {| name := "Fatal error during execution"; status := FAILURE;
     details := Some (Error.message e); executionTimeMs := None |}.

Definition completion_entry (elapsed : Z) : TestResult :=
  {| name := "Booking form validation"; status := SUCCESS;
     details := Some "All booking form validations have been completed.";
     executionTimeMs := Some elapsed |}.



(** The result a check pushes when its probe threw [e]. *)
Definition failure_of (c : Check) (e : Error.t) : TestResult :=
  {| name := check_name c; status := FAILURE;
     details := Some ("Error: " +:+ Error.message e); executionTimeMs := None |}.

(** The first statement of the outer [catch]: [console.error("Error:", error)]. *)
Definition is_fatal_log (c : Call) : bool :=
  match c with
  | console_error [LText "Error:"; LError _] => true
  | _ => false
  end.

(** The bucket, the URL of an object of the bucket and the parameters of
    its upload, as both handlers compute them. *)
Definition bucket_of (w : World.t) : string :=
  or_default (World.env w !! "AWS_S3_BUCKET") "technical-playwright-result".

Definition url_of (w : World.t) (file : string) : string :=
  "https://" +:+ bucket_of w +:+ ".s3.amazonaws.com/screenshots/" +:+ file.

Definition put_of (w : World.t) (file content : string) : PutObjectCommand :=
  {| Bucket := bucket_of w; Key := "screenshots/" +:+ file;
     Body := content; ContentType := "image/png" |}.

(** The filename of the handler with the battery, from the ISO time. *)
Definition Validated_file (iso : string) : string :=
  "aegean-flight-booking-" +:+ replace_colons_periods iso +:+ ".png".

Definition JSON_HEADERS : list (string * string) :=
  [("Content-Type", "application/json")].

(** The entries of the steps 1 to 3. *)
Definition navigate_entry (elapsed : Z) : TestResult :=
  {| name := "Navigate to Aegean Air website"; status := SUCCESS;
     details := Some ("Navigated to " +:+ PARAMETERS.url);
     executionTimeMs := Some elapsed |}.

Definition locate_entry (elapsed : Z) : TestResult :=
  {| name := "Locate the booking component"; status := SUCCESS;
     details := Some ("Component '" +:+ PARAMETERS.selector +:+ "' found.");
     executionTimeMs := Some elapsed |}.

Definition capture_entry (url : string) (elapsed : Z) : TestResult :=
  {| name := "Capture a screenshot of the component"; status := SUCCESS;
     details := Some ("Screenshot uploaded to S3: " +:+ url);
     executionTimeMs := Some elapsed |}.

(** The probes the whole battery gets to make. *)
Definition battery_log (w : World.t) : list Event :=
  concat (map (fun ch => probed (check_probes ch)) (battery w)).

(** The result a check pushes when all its probes returned. *)
Definition success_of (c : Check) : TestResult :=
  {| name := check_name c; status := SUCCESS;
     details := Some (check_passed c); executionTimeMs := None |}.

Definition is_completion (r : TestResult) : bool :=
  bool_decide (name r = "Booking form validation").

(** The [try]/[catch] of each handler, run from the declarations. *)
Definition Validated_core (w : World.t) : Outcome unit * State Validated.Locals :=
  try_catch (Validated.pipeline w) Validated.fatal (mkState Validated.declarations 0 []).

Definition Index_core (w : World.t) : Outcome unit * State Index.Locals :=
  try_catch (Index.pipeline w) Index.fatal (mkState Index.declarations 0 []).

(** [w] with [process.env.PREFIX] set to a value, or unset. *)
Definition with_PREFIX (value : option string) (w : World.t) : World.t :=
  with_env (match value with
            | Some v => <["PREFIX" := v]> (World.env w)
            | None => delete "PREFIX" (World.env w)
            end) w.

(** What [console.error] logs when [browser.close()] threw [e]. *)
Definition close_error_log (e : Error.t) : Event :=
  logged (console_error [LText "Error closing browser:"; LError e]) None.

(** The response of a run, when the handler returned one. *)
Definition response {L} (run : Outcome APIGatewayProxyResult.t * State L)
  : option APIGatewayProxyResult.t :=
  match fst run with
  | inr r => Some r
  | inl _ => None
  end.

(** *** Weakest preconditions

    [wp c s Q]: running [c] from [s] ends, by a return or a throw, in a
    result and a state that satisfy [Q]. *)
Definition wp {L A} (c : M L A) (s : State L) (Q : Outcome A -> State L -> Prop) : Prop :=
  Q (fst (c s)) (snd (c s)).

(** ** More readers of a run *)

(** More classes of calls. *)
Definition is_mkdir (c : Call) : bool :=
  match c with fs_mkdir _ => true | _ => false end.
Definition is_chmod (c : Call) : bool :=
  match c with fs_chmod _ _ => true | _ => false end.
Definition is_console_log (c : Call) : bool :=
  match c with console_log _ => true | _ => false end.
Definition is_access (c : Call) : bool :=
  match c with fs_access _ => true | _ => false end.
Definition is_query (c : Call) : bool :=
  match c with page_query _ => true | _ => false end.
Definition is_send (c : Call) : bool :=
  match c with s3Client_send _ _ => true | _ => false end.
Definition is_screenshot (c : Call) : bool :=
  match c with element_screenshot _ => true | _ => false end.
Definition is_newContext (c : Call) : bool :=
  match c with browser_newContext _ _ => true | _ => false end.

(** The directories of [ensureDirectoriesExist]. *)
Definition DIRS : list string := ["/tmp"; "/tmp/screenshots"; "/tmp/.cache"].

(** The calls [ensureDirectoriesExist] makes, run on its own. *)
Definition preparation (w : World.t) : list Event :=
  log (snd (ensureDirectoriesExist (L := unit) w (mkState tt 0 []))).

(** What made the preparation of a directory fail, if anything, and the
    note [ensureDirectoriesExist] then writes. *)
Definition first_failure (w : World.t) (dir : string) : option Error.t :=
  match World.mkdir w dir with
  | inl e => Some e
  | inr _ => error_of (World.chmod w dir)
  end.

Definition note_of (w : World.t) (dir : string) : list Call :=
  match first_failure w dir with
  | Some e =>
      [console_log [LText ("Note: Directory " +:+ dir +:+
                           " already exists or couldn't be created: " +:+
                           Error.message e)]]
  | None => []
  end.

(** [w] with other answers of the filesystem calls of
    [ensureDirectoriesExist]. *)
Definition with_fs (mkdir chmod : string -> Outcome unit) (w : World.t) : World.t := {|
  World.env := World.env w;
  World.clock := World.clock w;
  World.toISOString := World.toISOString w;
  World.chromium_args := World.chromium_args w;
  World.mkdir := mkdir;
  World.chmod := chmod;
  World.access := World.access w;
  World.readFile := World.readFile w;
  World.executablePath := World.executablePath w;
  World.launch := World.launch w;
  World.newContext := World.newContext w;
  World.newPage := World.newPage w;
  World.setDefaultNavigationTimeout := World.setDefaultNavigationTimeout w;
  World.goto := World.goto w;
  World.waitForSelector := World.waitForSelector w;
  World.query := World.query w;
  World.screenshot := World.screenshot w;
  World.send := World.send w;
  World.toBeVisible := World.toBeVisible w;
  World.toBeEnabled := World.toBeEnabled w;
  World.close := World.close w
|}.

(** [w] with other answers of the probes of the battery. *)
Definition with_probes (toBeVisible toBeEnabled : string -> Outcome unit) (w : World.t)
  : World.t := {|
  World.env := World.env w;
  World.clock := World.clock w;
  World.toISOString := World.toISOString w;
  World.chromium_args := World.chromium_args w;
  World.mkdir := World.mkdir w;
  World.chmod := World.chmod w;
  World.access := World.access w;
  World.readFile := World.readFile w;
  World.executablePath := World.executablePath w;
  World.launch := World.launch w;
  World.newContext := World.newContext w;
  World.newPage := World.newPage w;
  World.setDefaultNavigationTimeout := World.setDefaultNavigationTimeout w;
  World.goto := World.goto w;
  World.waitForSelector := World.waitForSelector w;
  World.query := World.query w;
  World.screenshot := World.screenshot w;
  World.send := World.send w;
  World.toBeVisible := toBeVisible;
  World.toBeEnabled := toBeEnabled;
  World.close := World.close w
|}.

(** A clock that does not run backwards. *)
Definition monotone (clock : nat -> Z) : Prop :=
  forall m n, (m <= n)%nat -> clock m <= clock n.

(** The local file both handlers write the screenshot to. *)
Definition SCREENSHOT_PATH : string := "/tmp/screenshots/flight-booking-component.png".

(** The screenshot file cannot be accessed. *)
Definition no_file : World.t := {|
  World.env := ∅;
  World.clock := fun n => 1705314645123 + 50 * Z.of_nat n;
  World.toISOString := fun _ => "2024-01-15T10:30:45.123Z";
  World.chromium_args := ["--headless"];
  World.mkdir := fun _ => inr tt;
  World.chmod := fun _ => inr tt;
  World.access := fun _ => throws "ENOENT: no such file or directory";
  World.readFile := fun _ => inr "PNG";
  World.executablePath := inr "/tmp/chromium";
  World.launch := inr tt;
  World.newContext := inr tt;
  World.newPage := inr tt;
  World.setDefaultNavigationTimeout := inr tt;
  World.goto := fun _ => inr tt;
  World.waitForSelector := fun _ => inr true;
  World.query := fun _ => inr true;
  World.screenshot := inr tt;
  World.send := fun _ => inr tt;
  World.toBeVisible := fun _ => inr tt;
  World.toBeEnabled := fun _ => inr tt;
  World.close := inr tt
|}.

(** [waitForSelector] resolves to [null]. *)
Definition no_component : World.t :=
  staged ∅ ok ok (inr false) ok ok (fun _ => ok) (fun _ => ok) ok.

(** [page.$] resolves to [null]. *)
Definition no_element : World.t := {|
  World.env := ∅;
  World.clock := fun n => 1705314645123 + 50 * Z.of_nat n;
  World.toISOString := fun _ => "2024-01-15T10:30:45.123Z";
  World.chromium_args := ["--headless"];
  World.mkdir := fun _ => inr tt;
  World.chmod := fun _ => inr tt;
  World.access := fun _ => inr tt;
  World.readFile := fun _ => inr "PNG";
  World.executablePath := inr "/tmp/chromium";
  World.launch := inr tt;
  World.newContext := inr tt;
  World.newPage := inr tt;
  World.setDefaultNavigationTimeout := inr tt;
  World.goto := fun _ => inr tt;
  World.waitForSelector := fun _ => inr true;
  World.query := fun _ => inr false;
  World.screenshot := inr tt;
  World.send := fun _ => inr tt;
  World.toBeVisible := fun _ => inr tt;
  World.toBeEnabled := fun _ => inr tt;
  World.close := inr tt
|}.

(** What the [finally] leaves in the log once the browser was launched. *)
Definition closing (w : World.t) : list Event :=
  match World.close w with
  | inl e => [logged browser_close (Some e); close_error_log e]
  | inr _ => [logged browser_close None]
  end.

(** Calls that all returned. *)
Definition returns (cs : list Call) : list Event := map (fun c => logged c None) cs.

(** The timeout a call is given, when it takes one. *)
Definition timeout_of (c : Call) : option Z :=
  match c with
  | page_setDefaultNavigationTimeout t
  | page_goto _ _ t
  | page_waitForSelector _ _ t
  | expect_toBeVisible _ t
  | expect_toBeEnabled _ t => Some t
  | _ => None
  end.

(** A call with a timeout other than one minute. *)
Definition is_impatient (c : Call) : bool :=
  match timeout_of c with
  | Some t => negb (Z.eqb t 60000)
  | None => false
  end.

(** The flags [BROWSER_ARGS] adds to those of [chromium.args]. *)
Definition SANDBOX_FLAGS : list string :=
  [ "--disable-gpu"; "--disable-dev-shm-usage"; "--disable-setuid-sandbox";
    "--no-sandbox"; "--single-process"; "--no-zygote"; "--ignore-certificate-errors" ].

(** Every browser of the log was launched and given its context as
    [src/utils/constants.ts] says, and there is at most one. *)
Definition configured (w : World.t) (tr : list Event) : Prop :=
  (forall args path o,
     In (logged (playwright_launch args path) o) tr ->
     args = World.chromium_args w ++ SANDBOX_FLAGS /\
     World.executablePath w = inr path) /\
  (forall viewport userAgent o,
     In (logged (browser_newContext viewport userAgent) o) tr ->
     viewport = (1280, 720) /\ userAgent = USER_AGENT) /\
  (length (select is_launch tr) <= 1)%nat.

(** *** The stages of a run *)

Inductive Stage :=
| executable | launching | context | paging | timing | navigating | waiting
| querying | capturing | accessing | reading | sending | probing.

Definition stage_of (c : Call) : option Stage :=
  match c with
  | chromium_executablePath => Some executable
  | playwright_launch _ _ => Some launching
  | browser_newContext _ _ => Some context
  | context_newPage => Some paging
  | page_setDefaultNavigationTimeout _ => Some timing
  | page_goto _ _ _ => Some navigating
  | page_waitForSelector _ _ _ => Some waiting
  | page_query _ => Some querying
  | element_screenshot _ => Some capturing
  | fs_access _ => Some accessing
  | fs_readFile _ => Some reading
  | s3Client_send _ _ => Some sending
  | expect_toBeVisible _ _ | expect_toBeEnabled _ _ => Some probing
  | _ => None
  end.

Definition Stage_eqb (a b : Stage) : bool :=
  match a, b with
  | executable, executable | launching, launching | context, context
  | paging, paging | timing, timing | navigating, navigating | waiting, waiting
  | querying, querying | capturing, capturing | accessing, accessing
  | reading, reading | sending, sending | probing, probing => true
  | _, _ => false
  end.

Definition at_stage (s : Stage) (c : Call) : bool :=
  match stage_of c with
  | Some s' => Stage_eqb s s'
  | None => false
  end.

(** Each stage of the list is called only after the one before it
    returned. *)
Fixpoint gated (tr : list Event) (stages : list Stage) : Prop :=
  match stages with
  | before :: (after :: _) as rest =>
      (called (at_stage after) tr = true -> returned (at_stage before) tr = true) /\
      gated tr rest
  | _ => True
  end.

Definition VALIDATED_STAGES : list Stage :=
  [ executable; launching; context; paging; timing; navigating; waiting;
    capturing; reading; sending; probing ].

Definition INDEX_STAGES : list Stage :=
  [ executable; launching; context; paging; timing; navigating; waiting;
    querying; capturing; accessing; reading; sending ].

(** ** [scripts/deploy-to-ecr.js]

    The deployment script: it builds the Docker image, logs in to ECR,
    tags and pushes the image and, on request, updates the Lambda
    function.  Besides returning and throwing, a statement of the script
    can end the process ([process.exit]), which no [catch] intercepts.

    What the model takes for granted: [console.log], [console.warn],
    [console.error], [fs.existsSync], [new Date().getTime()] and the
    [readline] calls do not throw, the question is answered, and the
    modules the script requires load. *)
Module Deploy.

(** The options [execSync] is given. *)
Inductive Options :=
| encoding_utf8
| stdio_inherit (cwd : string)
| stdio_pipe.

Inductive Call :=
| fs_existsSync (path : string)
| fs_copyFileSync (src dest : string)
| child_process_execSync (command : string) (options : Options)
| readline_createInterface
| rl_question (query : string)
| rl_close
| console_log (text : string)
| console_warn (text : string)
| console_error (text : string)
| console_error_value (e : Error.t)
| process_exit (code : Z).

Record Event := { call : Call; thrown : option Error.t }.

(** Everything outside the script: the environment once [dotenv] has read
    [.env], the two paths resolved from [__dirname], the filesystem, what
    each command does when executed, the clock and the user.  [trim] is
    [String.prototype.trim]; [toFixed ms] is [(ms / 1000).toFixed(2)]. *)
Module World.
Record t := {
  env : gmap string string;
  DOCKERFILE_PATH : string;
  PROJECT_ROOT : string;
  existsSync : string -> bool;
  copyFileSync : string -> string -> Outcome unit;
  execSync : string -> Outcome string;
  trim : string -> string;
  getTime : nat -> Z;
  answer : string;
  toFixed : Z -> string
}.
End World.

(** How a statement ends. *)
Inductive Completion (A : Type) :=
| Returned (a : A)
| Thrown (e : Error.t)
| Exited (code : Z).
Arguments Returned {A}.
Arguments Thrown {A}.
Arguments Exited {A}.

Record State := mkState {
  ticks : nat;
  log : list Event
}.

Definition D (A : Type) : Type := State -> Completion A * State.

Definition ret {A} (a : A) : D A := fun s => (Returned a, s).

Definition bind {A B} (c : D A) (k : A -> D B) : D B :=
  fun s =>
    match c s with
    | (Returned a, s') => k a s'
    | (Thrown e, s') => (Thrown e, s')
    | (Exited code, s') => (Exited code, s')
    end.

Declare Scope deploy_scope.
Delimit Scope deploy_scope with deploy.
Notation "x <- c1 ;; c2" := (bind c1 (fun x => c2))
  (at level 100, c1 at next level, c2 at level 200, right associativity) : deploy_scope.
Notation "c1 ;; c2" := (bind c1 (fun _ => c2))
  (at level 100, c2 at level 200, right associativity) : deploy_scope.
Local Open Scope deploy_scope.

(** [try { body } catch (error) { handler }]: the end of the process is
    not caught. *)
Definition try_catch {A} (body : D A) (handler : Error.t -> D A) : D A :=
  fun s =>
    match body s with
    | (Thrown e, s') => handler e s'
    | r => r
    end.

Definition logged (c : Call) (e : option Error.t) : Event := {| call := c; thrown := e |}.

(** A call that throws or returns. *)
Definition invoke {A} (c : Call) (o : Outcome A) : D A :=
  fun s =>
    (match o with inl e => Thrown e | inr a => Returned a end,
     mkState (ticks s) (log s ++ [logged c (error_of o)])).

(** A call that returns. *)
Definition perform {A} (c : Call) (a : A) : D A :=
  fun s => (Returned a, mkState (ticks s) (log s ++ [logged c None])).

(** [process.exit(code)]. *)
Definition exit {A} (code : Z) : D A :=
  fun s => (Exited code, mkState (ticks s) (log s ++ [logged (process_exit code) None])).

Module console.
Definition log (text : string) : D unit := perform (console_log text) tt.
Definition warn (text : string) : D unit := perform (console_warn text) tt.
Definition error (text : string) : D unit := perform (console_error text) tt.
Definition error_value (e : Error.t) : D unit := perform (console_error_value e) tt.
End console.

(** The line feed of ["\n..."]. *)
Definition nl : string := String (ascii_of_nat 10) EmptyString.

(** A value that may be [undefined], inside a template literal. *)
Definition template (value : option string) : string :=
  match value with
  | Some s => s
  | None => "undefined"
  end.

(** [String.prototype.toLowerCase], on the letters A to Z.  No other
    character becomes a [y], an [e] or an [s], so the comparison of the
    answer with ['yes'] is the script's. *)
Definition lower (c : ascii) : ascii :=
  let n := nat_of_ascii c in
  if (65 <=? n)%nat && (n <=? 90)%nat then ascii_of_nat (n + 32) else c.

Fixpoint toLowerCase (s : string) : string :=
  match s with
  | EmptyString => EmptyString
  | String c s' => String (lower c) (toLowerCase s')
  end.

Section Script.
Variable w : World.t.

Definition existsSync (path : string) : D bool :=
  perform (fs_existsSync path) (World.existsSync w path).
Definition copyFileSync (src dest : string) : D unit :=
  invoke (fs_copyFileSync src dest) (World.copyFileSync w src dest).
Definition execSync (command : string) (options : Options) : D string :=
  invoke (child_process_execSync command options) (World.execSync w command).
Definition getTime : D Z :=
  fun s => (Returned (World.getTime w (ticks s)), mkState (S (ticks s)) (log s)).
Definition createInterface : D unit := perform readline_createInterface tt.
Definition question (query : string) : D string :=
  perform (rl_question query) (World.answer w).
Definition close : D unit := perform rl_close tt.

(** Configuration from environment variables or default values. *)
Definition AWS_ACCOUNT_ID : option string := World.env w !! "AWS_ACCOUNT_ID".
Definition AWS_REGION : option string := World.env w !! "AWS_REGION".
Definition AWS_ECR_REPOSITORY : option string := World.env w !! "AWS_ECR_REPOSITORY".
Definition AWS_ECR_REPOSITORY_URL : option string := World.env w !! "AWS_ECR_REPOSITORY_URL".
Definition IMAGE_TAG : string := or_default (World.env w !! "IMAGE_TAG") "latest".
Definition UPDATE_LAMBDA : bool := bool_decide (World.env w !! "UPDATE_LAMBDA" = Some "true").

(** Make sure Dockerfile exists. *)
Definition ensureDockerfile : D unit :=
  found <- existsSync (World.DOCKERFILE_PATH w) ;;
  example <- (if negb found
              then existsSync (World.DOCKERFILE_PATH w +:+ ".example")
              else ret false) ;;
  if negb found && example
  then
    console.log "Dockerfile not found. Copying from Dockerfile.example..." ;;
    copyFileSync (World.DOCKERFILE_PATH w +:+ ".example") (World.DOCKERFILE_PATH w) ;;
    console.log "Dockerfile copied successfully."
  else ret tt.

(** Executes a command with error handling. *)
Definition executeCommand (command errorMessage : string) : D unit :=
  try_catch
    (console.log ("Executing: " +:+ command) ;;
     execSync command (stdio_inherit (World.PROJECT_ROOT w)) ;;
     ret tt)
    (fun error =>
       console.error errorMessage ;;
       console.error (Error.message error) ;;
       exit 1).

Definition awsCheckCommand : string :=
  "aws sts get-caller-identity --query Account --output text".

Definition dockerBuildCommand : string :=
  "docker buildx build  --tag " +:+ template AWS_ECR_REPOSITORY_URL +:+ ":" +:+
  IMAGE_TAG +:+ " .".

Definition loginCommand : string :=
  "aws ecr get-login-password --region " +:+ template AWS_REGION +:+
  " | docker login --username AWS --password-stdin " +:+ template AWS_ACCOUNT_ID +:+
  ".dkr.ecr." +:+ template AWS_REGION +:+ ".amazonaws.com".

Definition describeCommand : string :=
  "aws ecr describe-repositories --repository-names " +:+ template AWS_ECR_REPOSITORY +:+
  " --region " +:+ template AWS_REGION.

Definition ecrRepositoryUri : string :=
  template AWS_ACCOUNT_ID +:+ ".dkr.ecr." +:+ template AWS_REGION +:+
  ".amazonaws.com/" +:+ template AWS_ECR_REPOSITORY.

Definition tagCommand : string :=
  "docker tag " +:+ template AWS_ECR_REPOSITORY +:+ ":" +:+ IMAGE_TAG +:+ " " +:+
  ecrRepositoryUri +:+ ":" +:+ IMAGE_TAG.

Definition pushCommand : string :=
  "docker push " +:+ ecrRepositoryUri +:+ ":" +:+ IMAGE_TAG.

Definition updateCommand : string := "npx serverless deploy function -f playwrightTest".

(** Main process. *)
Definition main : D unit :=
  try_catch
    (console.log "====== STARTING DEPLOYMENT PROCESS ======" ;;
     startTime <- getTime ;;
     (* Verify AWS credentials *)
     console.log (nl +:+ "Verifying AWS credentials...") ;;
     try_catch
       (output <- execSync awsCheckCommand encoding_utf8 ;;
        let awsCheck := World.trim w output in
        console.log ("AWS configured correctly. Account ID: " +:+ awsCheck))
       (fun error =>
          console.error "No valid AWS credentials found. Please configure AWS CLI." ;;
          exit 1) ;;
     (* Build Docker image *)
     console.log (nl +:+ "Building Docker image...") ;;
     executeCommand dockerBuildCommand "Error building Docker image." ;;
     (* Log in to ECR *)
     console.log (nl +:+ "Logging in to AWS ECR...") ;;
     executeCommand loginCommand "Error logging in to ECR" ;;
     console.log "Logged in to ECR" ;;
     (* Verify if the repository exists *)
     console.log (nl +:+ "Verifying if the ECR repository exists...") ;;
     try_catch
       (execSync describeCommand stdio_pipe ;;
        console.log ("The ECR repository '" +:+ template AWS_ECR_REPOSITORY +:+ "' exists."))
       (fun error =>
          console.warn ("WARNING: The ECR repository '" +:+ template AWS_ECR_REPOSITORY +:+
                        "' does not exist or you don't have permission to access it.") ;;
          console.warn ("You need to have an existing repository named '" +:+
                        template AWS_ECR_REPOSITORY +:+ "' to proceed.") ;;
          console.warn "Please use the AWS console to create the repository if it does not exist." ;;
          console.warn "If you believe the repository exists, check your permissions and AWS credentials." ;;
          (* Ask user if they want to continue anyway *)
          createInterface ;;
          answer <- question "Do you want to continue anyway? (yes/no): " ;;
          close ;;
          (if negb (String.eqb (toLowerCase answer) "yes")
           then console.log "Deployment canceled." ;; exit 1
           else ret tt) ;;
          console.log "Continuing deployment...") ;;
     (* Tag image *)
     console.log (nl +:+ "Tagging image for ECR...") ;;
     executeCommand tagCommand "Error tagging the image" ;;
     console.log "Image tagged successfully" ;;
     (* Push to ECR *)
     console.log (nl +:+ "Pushing image to ECR...") ;;
     try_catch
       (executeCommand pushCommand "Error pushing the image to ECR" ;;
        console.log "Image pushed successfully to ECR")
       (fun error =>
          console.error "Failed to push image to ECR. This could be due to permission issues." ;;
          console.error "Check that your user has the following permissions:" ;;
          console.error "  - ecr:InitiateLayerUpload" ;;
          console.error "  - ecr:UploadLayerPart" ;;
          console.error "  - ecr:CompleteLayerUpload" ;;
          console.error "  - ecr:PutImage" ;;
          exit 1) ;;
     (* Update Lambda function if necessary *)
     (if UPDATE_LAMBDA
      then
        console.log (nl +:+ "Updating Lambda function...") ;;
        executeCommand updateCommand "Error updating Lambda function" ;;
        console.log "Lambda function updated successfully"
      else ret tt) ;;
     endTime <- getTime ;;
     let duration := endTime - startTime in
     console.log (nl +:+ "Deployment completed in " +:+ World.toFixed w duration +:+ " seconds") ;;
     console.log (nl +:+ "Deployment information:") ;;
     console.log ("- ECR repository: " +:+ ecrRepositoryUri) ;;
     console.log ("- Image tag: " +:+ IMAGE_TAG) ;;
     console.log ("- Full URI: " +:+ ecrRepositoryUri +:+ ":" +:+ IMAGE_TAG) ;;
     if UPDATE_LAMBDA
     then console.log (nl +:+ "You can test the Lambda function with: npm run invoke")
     else console.log (nl +:+ "To update the Lambda function, run: UPDATE_LAMBDA=true node scripts/deploy-to-ecr.js"))
    (fun error =>
       console.error "Error in deployment process:" ;;
       console.error_value error ;;
       exit 1).

(** The script: the statements of the module, then [main()]. *)
Definition script : D unit :=
  ensureDockerfile ;;
  main.
End Script.

(** A run of the script, the calls it made and the code the process ends
    with: 0 when the script runs to its end, 1 when an exception is
    uncaught. *)
Definition run (w : World.t) : Completion unit * State := script w (mkState 0 []).

Definition calls (w : World.t) : list Event := log (snd (run w)).

Definition exit_code (w : World.t) : Z :=
  match fst (run w) with
  | Returned _ => 0
  | Thrown _ => 1
  | Exited code => code
  end.

(** *** Reading a run *)

(** The commands executed, in order, and those that failed. *)
Fixpoint executed (tr : list Event) : list string :=
  match tr with
  | [] => []
  | {| call := child_process_execSync command _ |} :: tr' => command :: executed tr'
  | _ :: tr' => executed tr'
  end.

Fixpoint failures (tr : list Event) : list (string * Error.t) :=
  match tr with
  | [] => []
  | {| call := child_process_execSync command _; thrown := Some e |} :: tr' =>
      (command, e) :: failures tr'
  | _ :: tr' => failures tr'
  end.

(** What was written to the standard error stream. *)
Fixpoint stderr (tr : list Event) : list Call :=
  match tr with
  | [] => []
  | {| call := console_error text |} :: tr' => console_error text :: stderr tr'
  | {| call := console_error_value e |} :: tr' => console_error_value e :: stderr tr'
  | _ :: tr' => stderr tr'
  end.

(** The files copied, as (source, destination). *)
Fixpoint copies (tr : list Event) : list (string * string) :=
  match tr with
  | [] => []
  | {| call := fs_copyFileSync src dest |} :: tr' => (src, dest) :: copies tr'
  | _ :: tr' => copies tr'
  end.

(** Whether a command was executed. *)
Definition ran (command : string) (tr : list Event) : bool :=
  existsb (String.eqb command) (executed tr).

Fixpoint called (p : Call -> bool) (tr : list Event) : bool :=
  match tr with
  | [] => false
  | ev :: tr' => p (call ev) || called p tr'
  end.

Definition is_question (c : Call) : bool :=
  match c with rl_question _ => true | _ => false end.
Definition is_copy (c : Call) : bool :=
  match c with fs_copyFileSync _ _ => true | _ => false end.
Definition is_exit (c : Call) : bool :=
  match c with process_exit _ => true | _ => false end.


(** The message [executeCommand] is given for each command. *)
Definition errorMessages (w : World.t) : list (string * string) :=
  [ (dockerBuildCommand w, "Error building Docker image.");
    (loginCommand w, "Error logging in to ECR");
    (tagCommand w, "Error tagging the image");
    (pushCommand w, "Error pushing the image to ECR");
    (updateCommand, "Error updating Lambda function") ].

Definition succeeds (w : World.t) (command : string) : bool :=
  match World.execSync w command with
  | inr _ => true
  | inl _ => false
  end.

(** The exception of the copy of [Dockerfile.example], when it is made and
    throws. *)
Definition copy_failure (w : World.t) : option Error.t :=
  if negb (World.existsSync w (World.DOCKERFILE_PATH w))
     && World.existsSync w (World.DOCKERFILE_PATH w +:+ ".example")
  then error_of (World.copyFileSync w (World.DOCKERFILE_PATH w +:+ ".example")
                   (World.DOCKERFILE_PATH w))
  else None.

Definition confirmed (w : World.t) : bool :=
  String.eqb (toLowerCase (World.answer w)) "yes".

(** Every step of the deployment went through. *)
Definition deploys (w : World.t) : bool :=
  succeeds w awsCheckCommand
  && succeeds w (dockerBuildCommand w)
  && succeeds w (loginCommand w)
  && (succeeds w (describeCommand w) || confirmed w)
  && succeeds w (tagCommand w)
  && succeeds w (pushCommand w)
  && (negb (UPDATE_LAMBDA w) || succeeds w updateCommand).

Definition dwp {A} (c : D A) (s : State) (Q : Completion A -> State -> Prop) : Prop :=
  Q (fst (c s)) (snd (c s)).

(** A world in which every command succeeds. *)
Definition smooth : World.t := {|
  World.env := {[ "AWS_ACCOUNT_ID" := "123456789012"; "AWS_REGION" := "eu-west-1";
                  "AWS_ECR_REPOSITORY" := "flights";
                  "AWS_ECR_REPOSITORY_URL" := "flights" ]};
  World.DOCKERFILE_PATH := "/app/Dockerfile";
  World.PROJECT_ROOT := "/app";
  World.existsSync := fun _ => true;
  World.copyFileSync := fun _ _ => inr tt;
  World.execSync := fun _ => inr "123456789012";
  World.trim := fun s => s;
  World.getTime := fun n => 1705314645123 + 1500 * Z.of_nat n;
  World.answer := "no";
  World.toFixed := fun _ => "1.50"
|}.


(** The registry refuses the push. *)
Definition refused : World.t := {|
  World.env := World.env smooth;
  World.DOCKERFILE_PATH := "/app/Dockerfile";
  World.PROJECT_ROOT := "/app";
  World.existsSync := fun _ => true;
  World.copyFileSync := fun _ _ => inr tt;
  World.execSync := fun command =>
    if String.eqb command (pushCommand smooth)
    then inl (Error.mk "denied: not authorized")
    else inr "123456789012";
  World.trim := fun s => s;
  World.getTime := fun n => 1705314645123 + 1500 * Z.of_nat n;
  World.answer := "no";
  World.toFixed := fun _ => "1.50"
|}.
End Deploy.

(** * Proofs *)

(** ** Rules of the monad *)

Section Rules.
Context {L : Type}.
Implicit Types s : State L.

Lemma wp_ret {A} (a : A) s Q : Q (inr a) s -> wp (ret a) s Q.
Proof. exact (fun H => H). Qed.

Lemma wp_throw {A} (e : Error.t) s (Q : Outcome A -> State L -> Prop) :
  Q (inl e) s -> wp (throw e) s Q.
Proof. exact (fun H => H). Qed.

Lemma wp_bind {A B} (c : M L A) (k : A -> M L B) s Q :
  wp c s (fun r s' =>
            match r with
            | inl e => Q (inl e) s'
            | inr a => wp (k a) s' Q
            end) ->
  wp (bind c k) s Q.
Proof. unfold wp, bind. destruct (c s) as [[e|a] s']; exact (fun H => H). Qed.

Lemma wp_try_catch {A} (body : M L A) (handler : Error.t -> M L A) s Q :
  wp body s (fun r s' =>
               match r with
               | inl e => wp (handler e) s' Q
               | inr a => Q (inr a) s'
               end) ->
  wp (try_catch body handler) s Q.
Proof. unfold wp, try_catch. destruct (body s) as [[e|a] s']; exact (fun H => H). Qed.

Lemma wp_try_finally {A} (body : M L A) (final : M L unit) s Q :
  wp body s (fun r s' =>
               wp final s' (fun r' s'' =>
                              match r' with
                              | inl e => Q (inl e) s''
                              | inr _ => Q r s''
                              end)) ->
  wp (try_finally body final) s Q.
Proof.
  unfold wp, try_finally. destruct (body s) as [r s']; cbn [fst snd].
  destruct (final s') as [[e|u] s'']; exact (fun H => H).
Qed.

Lemma wp_get s (Q : Outcome L -> State L -> Prop) :
  Q (inr (locals s)) s -> wp get s Q.
Proof. exact (fun H => H). Qed.

Lemma wp_modify (f : L -> L) s Q :
  Q (inr tt) (mkState (f (locals s)) (ticks s) (log s)) -> wp (modify f) s Q.
Proof. exact (fun H => H). Qed.

(** A call either throws or returns; both are logged. *)
Lemma wp_invoke {A} (c : Call) (o : Outcome A) s Q :
  (forall e, o = inl e ->
     Q (inl e) (mkState (locals s) (ticks s) (log s ++ [logged c (Some e)]))) ->
  (forall a, o = inr a ->
     Q (inr a) (mkState (locals s) (ticks s) (log s ++ [logged c None]))) ->
  wp (invoke c o) s Q.
Proof. unfold wp, invoke. destruct o as [e|a]; intros He Ha; [apply He | apply Ha]; reflexivity. Qed.

(** A call that cannot throw ([console.log], [console.error]). *)
Lemma wp_invoke_returns {A} (c : Call) (a : A) s Q :
  Q (inr a) (mkState (locals s) (ticks s) (log s ++ [logged c None])) ->
  wp (invoke c (inr a)) s Q.
Proof. exact (fun H => H). Qed.

Lemma wp_Date_now (w : World.t) s Q :
  Q (inr (World.clock w (ticks s))) (mkState (locals s) (S (ticks s)) (log s)) ->
  wp (Date_now w) s Q.
Proof. exact (fun H => H). Qed.

Lemma wp_Date_toISOString (w : World.t) s Q :
  Q (inr (World.toISOString w (World.clock w (ticks s))))
    (mkState (locals s) (S (ticks s)) (log s)) ->
  wp (Date_toISOString w) s Q.
Proof. exact (fun H => H). Qed.

(** One turn of the loop of [ensureDirectoriesExist]. *)
Lemma prepare_run (w : World.t) (dir : string) s :
  try_catch
    (mkdir w dir ;; chmod w dir 511)
    (fun err =>
       console.log [LText ("Note: Directory " +:+ dir +:+
                    " already exists or couldn't be created: " +:+
                    Error.message err)]) s
  = (inr tt, mkState (locals s) (ticks s) (log s ++ dir_log w dir)).
Proof.
  unfold try_catch, bind, mkdir, chmod, console.log, invoke, dir_log, note, logged.
  destruct (World.mkdir w dir) as [e|[]]; cbn [fst snd error_of locals ticks log];
    rewrite <- ?app_assoc; [reflexivity|].
  destruct (World.chmod w dir) as [e|[]]; cbn [fst snd error_of locals ticks log];
    rewrite <- ?app_assoc; reflexivity.
Qed.

Lemma ensureDirectoriesExist_run (w : World.t) s :
  ensureDirectoriesExist w s =
  (inr tt, mkState (locals s) (ticks s) (log s ++ setup_log w)).
Proof.
  unfold ensureDirectoriesExist, setup_log, for_of.
  unfold bind at 1. rewrite prepare_run.
  unfold bind at 1. rewrite prepare_run.
  unfold bind at 1. rewrite prepare_run.
  cbn [locals ticks log ret]. unfold ret. rewrite <- !app_assoc. reflexivity.
Qed.

Lemma wp_ensureDirectoriesExist (w : World.t) s Q :
  Q (inr tt) (mkState (locals s) (ticks s) (log s ++ setup_log w)) ->
  wp (ensureDirectoriesExist w) s Q.
Proof. unfold wp. rewrite ensureDirectoriesExist_run. exact (fun H => H). Qed.
End Rules.

Lemma dir_log_is_setup (w : World.t) (dir : string) :
  Forall (fun ev => is_setup (call ev) = true) (dir_log w dir).
Proof.
  unfold dir_log.
  destruct (World.mkdir w dir); [|destruct (World.chmod w dir)]; repeat constructor.
Qed.

Lemma setup_log_is_setup (w : World.t) :
  Forall (fun ev => is_setup (call ev) = true) (setup_log w).
Proof. unfold setup_log. rewrite !Forall_app. auto using dir_log_is_setup. Qed.

(** ** The five checks of step 4 against the table *)

Section Checks.
Variable w : World.t.
Implicit Types s : State Validated.Locals.

(** A block with one probe. *)
Lemma check1_run (c : Call) (o : Outcome unit) (label passed : string) s :
  try_catch
    (invoke c o ;;
     Validated.push {| name := label; status := SUCCESS;
                       details := Some passed; executionTimeMs := None |})
    (fun error =>
       Validated.push {| name := label; status := FAILURE;
                         details := Some ("Error: " +:+ Error.message error);
                         executionTimeMs := None |}) s
  = (inr tt, checked {| check_name := label; check_passed := passed;
                        check_probes := [(c, o)] |} s).
Proof.
  unfold try_catch, bind, invoke, Validated.push, modify, checked, verdict.
  destruct o as [e|[]]; cbn [fst snd error_of locals ticks log probed check_probes];
    rewrite <- ?app_assoc; reflexivity.
Qed.

(** A block with two probes: the second is made only if the first
    returns. *)
Lemma check2_run (c1 c2 : Call) (o1 o2 : Outcome unit) (label passed : string) s :
  try_catch
    (invoke c1 o1 ;;
     invoke c2 o2 ;;
     Validated.push {| name := label; status := SUCCESS;
                       details := Some passed; executionTimeMs := None |})
    (fun error =>
       Validated.push {| name := label; status := FAILURE;
                         details := Some ("Error: " +:+ Error.message error);
                         executionTimeMs := None |}) s
  = (inr tt, checked {| check_name := label; check_passed := passed;
                        check_probes := [(c1, o1); (c2, o2)] |} s).
Proof.
  unfold try_catch, bind, invoke, Validated.push, modify, checked, verdict.
  destruct o1 as [e|[]]; cbn [fst snd error_of locals ticks log probed check_probes];
    rewrite <- ?app_assoc; [reflexivity|].
  destruct o2 as [e|[]]; cbn [fst snd error_of locals ticks log probed check_probes];
    rewrite <- ?app_assoc; reflexivity.
Qed.

Lemma validate_trip_type_selector_run s :
  Validated.validate_trip_type_selector w s = (inr tt, checked (check_trip_type w) s).
Proof. apply check1_run. Qed.

Lemma validate_passengers_selector_run s :
  Validated.validate_passengers_selector w s = (inr tt, checked (check_passengers w) s).
Proof. apply check1_run. Qed.

Lemma validate_origin_destination_run s :
  Validated.validate_origin_destination w s
  = (inr tt, checked (check_origin_destination w) s).
Proof. apply check2_run. Qed.

Lemma validate_date_selectors_run s :
  Validated.validate_date_selectors w s = (inr tt, checked (check_dates w) s).
Proof. apply check2_run. Qed.

Lemma validate_search_button_run s :
  Validated.validate_search_button w s = (inr tt, checked (check_search_button w) s).
Proof. apply check2_run. Qed.

Lemma wp_trip_type s Q :
  Q (inr tt) (checked (check_trip_type w) s) ->
  wp (Validated.validate_trip_type_selector w) s Q.
Proof. unfold wp. rewrite validate_trip_type_selector_run. exact (fun H => H). Qed.

Lemma wp_passengers s Q :
  Q (inr tt) (checked (check_passengers w) s) ->
  wp (Validated.validate_passengers_selector w) s Q.
Proof. unfold wp. rewrite validate_passengers_selector_run. exact (fun H => H). Qed.

Lemma wp_origin_destination s Q :
  Q (inr tt) (checked (check_origin_destination w) s) ->
  wp (Validated.validate_origin_destination w) s Q.
Proof. unfold wp. rewrite validate_origin_destination_run. exact (fun H => H). Qed.

Lemma wp_dates s Q :
  Q (inr tt) (checked (check_dates w) s) ->
  wp (Validated.validate_date_selectors w) s Q.
Proof. unfold wp. rewrite validate_date_selectors_run. exact (fun H => H). Qed.

Lemma wp_search_button s Q :
  Q (inr tt) (checked (check_search_button w) s) ->
  wp (Validated.validate_search_button w) s Q.
Proof. unfold wp. rewrite validate_search_button_run. exact (fun H => H). Qed.
End Checks.

(** ** Running a handler symbolically *)

Ltac reduce_state :=
  cbv beta iota;
  cbn [locals ticks log fst snd app checked
       Validated.browser Validated.screenshotUrl Validated.statusCode
       Validated.message Validated.testResults Validated.totalExecutionTimeMs
       Index.browser Index.screenshotUrl Index.statusCode Index.message].

Ltac head_of t :=
  lazymatch t with
  | ?f _ => head_of f
  | _ => t
  end.

(** Split a conjunction into its parts. *)
Ltac conj := repeat match goal with |- _ /\ _ => split end.

Ltac step :=
  lazymatch goal with
  | |- wp (bind _ _) _ _ => apply wp_bind
  | |- wp (ret _) _ _ => apply wp_ret
  | |- wp (throw _) _ _ => apply wp_throw
  | |- wp (try_finally _ _) _ _ => apply wp_try_finally
  | |- wp (try_catch _ _) _ _ => apply wp_try_catch
  | |- wp get _ _ => apply wp_get
  | |- wp (modify _) _ _ => apply wp_modify
  | |- wp (Date_now _) _ _ => apply wp_Date_now
  | |- wp (Date_toISOString _) _ _ => apply wp_Date_toISOString
  | |- wp (ensureDirectoriesExist _) _ _ => apply wp_ensureDirectoriesExist
  | |- wp (Validated.validate_trip_type_selector _) _ _ => apply wp_trip_type
  | |- wp (Validated.validate_passengers_selector _) _ _ => apply wp_passengers
  | |- wp (Validated.validate_origin_destination _) _ _ => apply wp_origin_destination
  | |- wp (Validated.validate_date_selectors _) _ _ => apply wp_dates
  | |- wp (Validated.validate_search_button _) _ _ => apply wp_search_button
  | |- wp (invoke _ (inr _)) _ _ => apply wp_invoke_returns
  | |- wp (invoke _ _) _ _ =>
      apply wp_invoke;
      [ let e := fresh "e" in let H := fresh "Hthrown" in intros e H
      | let a := fresh "a" in let H := fresh "Hreturned" in intros a H ]
  | |- wp (if negb ?b then _ else _) _ _ => destruct b; cbn [negb]
  | |- wp (match ?o with Some _ => _ | None => _ end) _ _ => fail "stuck on an option"
  | |- wp ?c _ _ => let h := head_of c in unfold h
  end;
  reduce_state.

Ltac run := repeat step.

Lemma Validated_handler_wp (w : World.t) (event : Json)
    (P : Outcome APIGatewayProxyResult.t * State Validated.Locals -> Prop) :
  wp (Validated.handler_body w event) (mkState Validated.declarations 0 [])
     (fun r s => P (r, s)) ->
  P (Validated.handler w event).
Proof. unfold wp, Validated.handler. destruct (Validated.handler_body _ _ _). exact (fun H => H). Qed.

Lemma Index_handler_wp (w : World.t) (event : Json)
    (P : Outcome APIGatewayProxyResult.t * State Index.Locals -> Prop) :
  wp (Index.handler_body w event) (mkState Index.declarations 0 [])
     (fun r s => P (r, s)) ->
  P (Index.handler w event).
Proof. unfold wp, Index.handler. destruct (Index.handler_body _ _ _). exact (fun H => H). Qed.

Ltac reduce_run :=
  cbv beta;
  cbn [locals ticks log fst snd response
       Validated.browser Validated.screenshotUrl Validated.statusCode
       Validated.message Validated.testResults Validated.totalExecutionTimeMs
       Index.browser Index.screenshotUrl Index.statusCode Index.message
       APIGatewayProxyResult.statusCode APIGatewayProxyResult.headers
       APIGatewayProxyResult.body].

(** Run [Validated.handler w event] where the goal mentions it: one goal
    for each path through the handler, with the outcome of every call
    made on that path among the hypotheses. *)
Ltac run_validated w event :=
  unfold Validated.final, Validated.calls;
  pattern (Validated.handler w event);
  lazymatch goal with
  | |- ?P _ =>
      let Q := fresh "Q" in
      set (Q := P); apply Validated_handler_wp;
      unfold Validated.declarations;
      run;
      subst Q; reduce_run
  end.

Ltac run_index w event :=
  unfold Index.final, Index.calls;
  pattern (Index.handler w event);
  lazymatch goal with
  | |- ?P _ =>
      let Q := fresh "Q" in
      set (Q := P); apply Index_handler_wp;
      unfold Index.declarations;
      run;
      subst Q; reduce_run
  end.

(** ** Reading the call log *)

Section Log.
Variable p : Call -> bool.
Implicit Types tr : list Event.

Lemma called_app tr1 tr2 : called p (tr1 ++ tr2) = called p tr1 || called p tr2.
Proof.
  induction tr1 as [|ev tr1 IH]; cbn [called app]; [reflexivity|].
  rewrite IH. apply orb_assoc.
Qed.

Lemma returned_app tr1 tr2 : returned p (tr1 ++ tr2) = returned p tr1 || returned p tr2.
Proof.
  induction tr1 as [|ev tr1 IH]; cbn [returned app]; [reflexivity|].
  rewrite IH. apply orb_assoc.
Qed.

Lemma failed_app tr1 tr2 : failed p (tr1 ++ tr2) = failed p tr1 || failed p tr2.
Proof.
  induction tr1 as [|ev tr1 IH]; cbn [failed app]; [reflexivity|].
  rewrite IH. apply orb_assoc.
Qed.

Lemma select_app tr1 tr2 : select p (tr1 ++ tr2) = select p tr1 ++ select p tr2.
Proof.
  induction tr1 as [|ev tr1 IH]; cbn [select app]; [reflexivity|].
  rewrite IH. destruct (p (call ev)); reflexivity.
Qed.

(** A stretch of the log with no call of class [p]. *)
Lemma select_none tr :
  Forall (fun ev => p (call ev) = false) tr -> select p tr = [].
Proof.
  induction 1 as [|ev tr Hev _ IH]; [reflexivity|].
  cbn [select]. rewrite Hev. exact IH.
Qed.

Lemma select_all tr :
  Forall (fun ev => p (call ev) = true) tr -> select p tr = tr.
Proof.
  induction 1 as [|ev tr Hev _ IH]; [reflexivity|].
  cbn [select]. rewrite Hev, IH. reflexivity.
Qed.

Lemma called_none tr :
  Forall (fun ev => p (call ev) = false) tr -> called p tr = false.
Proof.
  induction 1 as [|ev tr Hev _ IH]; [reflexivity|].
  cbn [called]. rewrite Hev, IH. reflexivity.
Qed.

Lemma returned_none tr :
  Forall (fun ev => p (call ev) = false) tr -> returned p tr = false.
Proof.
  induction 1 as [|ev tr Hev _ IH]; [reflexivity|].
  cbn [returned]. rewrite Hev, IH. reflexivity.
Qed.

Lemma failed_none tr :
  Forall (fun ev => p (call ev) = false) tr -> failed p tr = false.
Proof.
  induction 1 as [|ev tr Hev _ IH]; [reflexivity|].
  cbn [failed]. rewrite Hev, IH. reflexivity.
Qed.

(** [ensureDirectoriesExist] makes no call of a class disjoint from
    [is_setup]. *)
Hypothesis not_setup : forall c, is_setup c = true -> p c = false.

Lemma setup_log_none (w : World.t) :
  Forall (fun ev => p (call ev) = false) (setup_log w).
Proof.
  eapply List.Forall_impl; [|apply setup_log_is_setup].
  intros ev Hev. apply not_setup, Hev.
Qed.

Lemma select_setup (w : World.t) : select p (setup_log w) = [].
Proof. apply select_none, setup_log_none. Qed.

Lemma called_setup (w : World.t) : called p (setup_log w) = false.
Proof. apply called_none, setup_log_none. Qed.

Lemma returned_setup (w : World.t) : returned p (setup_log w) = false.
Proof. apply returned_none, setup_log_none. Qed.

Lemma failed_setup (w : World.t) : failed p (setup_log w) = false.
Proof. apply failed_none, setup_log_none. Qed.
End Log.

(** What the probes of a check leave in the log. *)
Lemma probed_calls (ps : list (Call * Outcome unit)) (P : Call -> Prop) :
  Forall (fun cp => P (fst cp)) ps ->
  Forall (fun ev => P (call ev)) (probed ps).
Proof.
  induction 1 as [|[c [e|u]] ps Hc _ IH]; cbn [probed]; repeat constructor; assumption.
Qed.


Lemma called_probed (p : Call -> bool) (ps : list (Call * Outcome unit)) :
  (forall k, is_probe k = true -> p k = false) ->
  Forall (fun cp => is_probe (fst cp) = true) ps ->
  called p (probed ps) = false.
Proof.
  intros Hp Hps. apply called_none.
  eapply List.Forall_impl; [|apply (probed_calls ps (fun c => is_probe c = true) Hps)].
  intros ev Hev. apply Hp, Hev.
Qed.

Lemma returned_probed (p : Call -> bool) (ps : list (Call * Outcome unit)) :
  (forall k, is_probe k = true -> p k = false) ->
  Forall (fun cp => is_probe (fst cp) = true) ps ->
  returned p (probed ps) = false.
Proof.
  intros Hp Hps. apply returned_none.
  eapply List.Forall_impl; [|apply (probed_calls ps (fun c => is_probe c = true) Hps)].
  intros ev Hev. apply Hp, Hev.
Qed.

Lemma failed_probed (p : Call -> bool) (ps : list (Call * Outcome unit)) :
  (forall k, is_probe k = true -> p k = false) ->
  Forall (fun cp => is_probe (fst cp) = true) ps ->
  failed p (probed ps) = false.
Proof.
  intros Hp Hps. apply failed_none.
  eapply List.Forall_impl; [|apply (probed_calls ps (fun c => is_probe c = true) Hps)].
  intros ev Hev. apply Hp, Hev.
Qed.

Lemma select_probed_none (p : Call -> bool) (ps : list (Call * Outcome unit)) :
  (forall k, is_probe k = true -> p k = false) ->
  Forall (fun cp => is_probe (fst cp) = true) ps ->
  select p (probed ps) = [].
Proof.
  intros Hp Hps. apply select_none.
  eapply List.Forall_impl; [|apply (probed_calls ps (fun c => is_probe c = true) Hps)].
  intros ev Hev. apply Hp, Hev.
Qed.

Lemma select_probed (ps : list (Call * Outcome unit)) :
  Forall (fun cp => is_probe (fst cp) = true) ps ->
  select is_probe (probed ps) = probed ps.
Proof.
  intros Hps. apply select_all, (probed_calls ps (fun c => is_probe c = true) Hps).
Qed.

(** Side conditions: two classes of calls are disjoint; the probes of a
    check of the table are probes. *)
Ltac disjoint :=
  let H := fresh "H" in intros [] H; (discriminate H || reflexivity).
Ltac probes := repeat constructor.

(** Bring the log of a finished run to the form
    [setup_log w ++ e1 :: e2 :: ...] and evaluate the readers on it. *)
Ltac read_log :=
  rewrite <- ?app_assoc; cbn [app];
  repeat progress
    (rewrite ?called_app, ?returned_app, ?failed_app, ?select_app;
     rewrite ?called_setup, ?returned_setup, ?failed_setup, ?select_setup by disjoint;
     rewrite ?called_probed, ?returned_probed, ?failed_probed, ?select_probed_none
       by first [disjoint | probes];
     rewrite ?select_probed by probes;
     cbn [called returned failed select call thrown logged is_thrown
          is_probe is_close is_launch is_goto is_waitForSelector is_capture is_setup
          is_fatal_log andb orb negb app]).

(** An entry is in the log: by position, or because the call that would
    have logged it answered otherwise, or was never reached. *)
Ltac find_entry :=
  solve [ repeat first [ apply in_eq | apply in_cons | (apply in_or_app; right) ] ].

Ltac close_logged Hclose Hlaunch :=
  first
    [ discriminate Hlaunch
    | match goal with
      | H : World.close _ = _ |- _ =>
          rewrite H in Hclose;
          first
            [ discriminate Hclose
            | injection Hclose as <-;
              rewrite <- ?app_assoc; cbn [app]; apply in_or_app; right; find_entry ]
      end ].

Ltac read_log_in H :=
  rewrite <- ?app_assoc in H; cbn [app] in H;
  repeat progress
    (rewrite ?called_app, ?returned_app, ?failed_app, ?select_app in H;
     rewrite ?called_setup, ?returned_setup, ?failed_setup, ?select_setup in H by disjoint;
     rewrite ?called_probed, ?returned_probed, ?failed_probed, ?select_probed_none in H
       by first [disjoint | probes];
     rewrite ?select_probed in H by probes;
     cbn [called returned failed select call thrown logged is_thrown
          is_probe is_close is_launch is_goto is_waitForSelector is_capture is_setup
          is_fatal_log andb orb negb app] in H).

(** ** Every path through the handler with the battery

    A run ends in one of two ways.  Either the outer [catch] ran: the
    status is 500, no elapsed time and no URL are reported, no probe was
    called and the fatal entry comes last.  Or step 4 was reached and
    completed: the status is 200 and the results are the three step
    entries, the verdicts of the five checks and the completion entry.
    In both, the response carries the report, and the browser is closed
    once if it was launched. *)
Lemma Validated_run (w : World.t) (event : Json) :
  (exists timestamp,
     response (Validated.handler w event)
     = Some {| APIGatewayProxyResult.statusCode :=
                 Validated.statusCode (Validated.final w event);
               APIGatewayProxyResult.headers := JSON_HEADERS;
               APIGatewayProxyResult.body :=
                 JSON_stringify
                   (Validated.report (Validated.final w event) timestamp event) |}) /\
  length (select is_close (Validated.calls w event))
    = (if returned is_launch (Validated.calls w event) then 1 else 0)%nat /\
  (forall e, World.close w = inl e ->
             returned is_launch (Validated.calls w event) = true ->
             In (close_error_log e) (Validated.calls w event)) /\
  ((Validated.statusCode (Validated.final w event) = 500 /\
    Validated.totalExecutionTimeMs (Validated.final w event) = 0 /\
    Validated.screenshotUrl (Validated.final w event) = None /\
    called is_fatal_log (Validated.calls w event) = true /\
    select is_probe (Validated.calls w event) = [] /\
    exists e,
      Validated.message (Validated.final w event) = "Fatal error: " +:+ Error.message e /\
      last (Validated.testResults (Validated.final w event)) = Some (fatal_entry e))
   \/
   (Validated.statusCode (Validated.final w event) = 200 /\
    Validated.totalExecutionTimeMs (Validated.final w event)
      = World.clock w 10 - World.clock w 0 /\
    Validated.message (Validated.final w event) = "Success" /\
    called is_fatal_log (Validated.calls w event) = false /\
    select is_probe (Validated.calls w event) = battery_log w /\
    exists file content,
      file = Validated_file (World.toISOString w (World.clock w 6)) /\
      Validated.screenshotUrl (Validated.final w event) = Some (url_of w file) /\
      In (logged (s3Client_send (World.env w !! "AWS_REGION") (put_of w file content)) None)
         (Validated.calls w event) /\
      Validated.testResults (Validated.final w event)
        = [ navigate_entry (World.clock w 2 - World.clock w 1);
            locate_entry (World.clock w 4 - World.clock w 3);
            capture_entry (url_of w file) (World.clock w 7 - World.clock w 5) ]
          ++ map verdict (battery w)
          ++ [completion_entry (World.clock w 9 - World.clock w 8)])).
Proof.
  run_validated w event.
  all: split; [eexists; reflexivity|].
  all: split; [read_log; reflexivity|].
  all: split; [intros e' Hclose Hlaunch; read_log_in Hlaunch;
               close_logged Hclose Hlaunch|].
  all: first
    [ left; repeat split; try reflexivity;
      [ read_log; reflexivity
      | read_log; reflexivity
      | eexists; split; reflexivity ]
    | right; repeat split; try reflexivity;
      [ read_log; reflexivity
      | read_log; unfold battery_log; cbn [battery map concat app];
        rewrite ?app_nil_r; reflexivity
      | eexists _, _; split; [reflexivity|]; split; [reflexivity|];
        split; [|reflexivity];
        rewrite <- ?app_assoc; cbn [app]; apply in_or_app; right;
        do 9 right; left; reflexivity ] ].
Qed.

Lemma probed_sublist (ps : list (Call * Outcome unit)) :
  sublist (map call (probed ps)) (map fst ps).
Proof.
  induction ps as [|[c [e|u]] ps IH]; cbn [probed map fst call].
  - constructor.
  - apply sublist_skip, sublist_nil_l.
  - apply sublist_skip, IH.
Qed.

Lemma battery_log_sublist (w : World.t) : sublist (map call (battery_log w)) PROBES.
Proof.
  unfold battery_log, battery. cbn [map concat]. rewrite app_nil_r, !map_app.
  change PROBES with
    (map fst (check_probes (check_trip_type w)) ++
     map fst (check_probes (check_passengers w)) ++
     map fst (check_probes (check_origin_destination w)) ++
     map fst (check_probes (check_dates w)) ++
     map fst (check_probes (check_search_button w))).
  repeat apply sublist_app; apply probed_sublist.
Qed.

Lemma select_called (p : Call -> bool) (tr : list Event) :
  select p tr = [] -> called p tr = false.
Proof.
  induction tr as [|ev tr IH]; cbn [select called]; [reflexivity|].
  destruct (p (call ev)); [discriminate|exact IH].
Qed.

(** ** Every path through the handler of [src/index.ts] *)

Lemma Index_run (w : World.t) (event : Json) :
  (exists timestamp,
     response (Index.handler w event)
     = Some {| APIGatewayProxyResult.statusCode := Index.statusCode (Index.final w event);
               APIGatewayProxyResult.headers := JSON_HEADERS;
               APIGatewayProxyResult.body :=
                 JSON_stringify (Index.report (Index.final w event) timestamp event) |}) /\
  length (select is_close (Index.calls w event))
    = (if returned is_launch (Index.calls w event) then 1 else 0)%nat /\
  (forall e, World.close w = inl e ->
             returned is_launch (Index.calls w event) = true ->
             In (close_error_log e) (Index.calls w event)) /\
  ((Index.statusCode (Index.final w event) = 500 /\
    Index.screenshotUrl (Index.final w event) = None /\
    exists e, Index.message (Index.final w event) = "Error: " +:+ Error.message e)
   \/
   (Index.statusCode (Index.final w event) = 200 /\
    Index.message (Index.final w event) = "Success" /\
    exists file content,
      file = Index.filename_of w
               (replace_colons_periods (World.toISOString w (World.clock w 0))) /\
      Index.screenshotUrl (Index.final w event) = Some (url_of w file) /\
      In (logged (s3Client_send
                    (Some (or_default (World.env w !! "AWS_REGION") "us-east-2"))
                    (put_of w file content)) None)
         (Index.calls w event))).
Proof.
  run_index w event.
  all: split; [eexists; reflexivity|].
  all: split; [read_log; reflexivity|].
  all: split; [intros e' Hclose Hlaunch; read_log_in Hlaunch;
               close_logged Hclose Hlaunch|].
  all: first
    [ left; repeat split; try reflexivity; eexists; reflexivity
    | right; repeat split; try reflexivity;
      eexists _, _; split; [reflexivity|]; split; [reflexivity|];
      rewrite <- ?app_assoc; cbn [app]; apply in_or_app; right;
      do 11 right; left; reflexivity ].
Qed.

(** ** Serialisation *)

Lemma response_returned {L} (run : Outcome APIGatewayProxyResult.t * State L) r :
  response run = Some r -> fst run = inr r.
Proof. unfold response. destruct (fst run); [discriminate|]. intros [= ->]. reflexivity. Qed.

Lemma append_nil_l (a : string) : "" +:+ a = a.
Proof. reflexivity. Qed.

Lemma append_cons (x : ascii) (a b : string) : String x a +:+ b = String x (a +:+ b).
Proof. reflexivity. Qed.

Lemma append_assoc (a b c : string) : (a +:+ b) +:+ c = a +:+ b +:+ c.
Proof.
  induction a as [|x a IH]; [reflexivity|].
  rewrite !append_cons, IH. reflexivity.
Qed.

Lemma append_nil_r (a : string) : a +:+ "" = a.
Proof.
  induction a as [|x a IH]; [reflexivity|].
  rewrite append_cons, IH. reflexivity.
Qed.

Lemma contains_refl (s : string) : contains s s.
Proof. exists "", "". rewrite append_nil_l, append_nil_r. reflexivity. Qed.

Lemma contains_append (a s b sub : string) :
  contains s sub -> contains (a +:+ s +:+ b) sub.
Proof.
  intros (x & y & ->). exists (a +:+ x), (y +:+ b).
  rewrite !append_assoc. reflexivity.
Qed.

Lemma contains_join (sep part : string) (parts : list string) :
  In part parts -> contains (join sep parts) part.
Proof.
  induction parts as [|x parts IH]; intros Hin; [destruct Hin|].
  destruct parts as [|y rest].
  - destruct Hin as [->|[]]. apply contains_refl.
  - change (join sep (x :: y :: rest)) with (x +:+ sep +:+ join sep (y :: rest)).
    destruct Hin as [->|Hin].
    + exists "", (sep +:+ join sep (y :: rest)). reflexivity.
    + destruct (IH Hin) as (u & v & Heq).
      exists (x +:+ sep +:+ u), v. rewrite Heq, !append_assoc. reflexivity.
Qed.

(** A property of an object is serialised inside the object. *)
Lemma stringify_field (fields : list (string * Json)) (k : string) (v : Json) :
  In (k, v) fields -> contains (JSON_stringify (JObj fields)) (JSON_stringify v).
Proof.
  intros Hin. cbn [JSON_stringify]. 
  apply contains_append.
  destruct (contains_join "," (quote k +:+ ":" +:+ JSON_stringify v)
              (map (fun '(k, v) => quote k +:+ ":" +:+ JSON_stringify v) fields))
    as (u & z & Heq).
  { apply (in_map (fun '(k, v) => quote k +:+ ":" +:+ JSON_stringify v) _ _ Hin). }
  rewrite Heq. exists (u +:+ quote k +:+ ":"), z. rewrite !append_assoc. reflexivity.
Qed.

(** ** The [finally] *)

Lemma Validated_release_run (w : World.t) (s : State Validated.Locals) :
  exists tr, Validated.release w s = (inr tt, mkState (locals s) (ticks s) (log s ++ tr)).
Proof.
  unfold Validated.release, bind, get. cbn [fst snd].
  destruct (Validated.browser (locals s)).
  - unfold try_catch, close, console.error, invoke.
    destruct (World.close w) as [e|[]]; cbn [fst snd locals ticks log error_of];
      rewrite <- ?app_assoc; eexists; reflexivity.
  - exists []. rewrite app_nil_r. destruct s; reflexivity.
Qed.

Lemma Index_release_run (w : World.t) (s : State Index.Locals) :
  exists tr, Index.release w s = (inr tt, mkState (locals s) (ticks s) (log s ++ tr)).
Proof.
  unfold Index.release, bind, get. cbn [fst snd].
  destruct (Index.browser (locals s)).
  - unfold try_catch, close, console.error, invoke.
    destruct (World.close w) as [e|[]]; cbn [fst snd locals ticks log error_of];
      rewrite <- ?app_assoc; eexists; reflexivity.
  - exists []. rewrite app_nil_r. destruct s; reflexivity.
Qed.

Lemma Validated_core_returns (w : World.t) : fst (Validated_core w) = inr tt.
Proof.
  unfold Validated_core, try_catch.
  destruct (Validated.pipeline w _) as [[e|[]] s]; reflexivity.
Qed.

Lemma Index_core_returns (w : World.t) : fst (Index_core w) = inr tt.
Proof.
  unfold Index_core, try_catch.
  destruct (Index.pipeline w _) as [[e|[]] s]; reflexivity.
Qed.

(** The response and the final variables are those of the [try]/[catch]:
    the [finally] only adds to the log. *)
Lemma Validated_handler_core (w : World.t) (event : Json) :
  let s := snd (Validated_core w) in
  exists tr,
    Validated.handler w event
    = (inr {| APIGatewayProxyResult.statusCode := Validated.statusCode (locals s);
              APIGatewayProxyResult.headers := JSON_HEADERS;
              APIGatewayProxyResult.body :=
                JSON_stringify
                  (Validated.report (locals s)
                     (World.toISOString w (World.clock w (ticks s))) event) |},
       mkState (locals s) (S (ticks s)) (log s ++ tr)).
Proof.
  unfold Validated.handler, Validated.handler_body, bind, try_finally.
  change (try_catch (Validated.pipeline w) Validated.fatal
            (mkState Validated.declarations 0 []))
    with (Validated_core w).
  pose proof (Validated_core_returns w) as Hret.
  destruct (Validated_core w) as [r s]. cbn [fst snd] in *. subst r.
  destruct (Validated_release_run w s) as (tr & ->).
  exists tr. reflexivity.
Qed.

Lemma Index_handler_core (w : World.t) (event : Json) :
  let s := snd (Index_core w) in
  exists tr,
    Index.handler w event
    = (inr {| APIGatewayProxyResult.statusCode := Index.statusCode (locals s);
              APIGatewayProxyResult.headers := JSON_HEADERS;
              APIGatewayProxyResult.body :=
                JSON_stringify
                  (Index.report (locals s)
                     (World.toISOString w (World.clock w (ticks s))) event) |},
       mkState (locals s) (S (ticks s)) (log s ++ tr)).
Proof.
  unfold Index.handler, Index.handler_body, bind, try_finally.
  change (try_catch (Index.pipeline w) Index.fatal (mkState Index.declarations 0 []))
    with (Index_core w).
  pose proof (Index_core_returns w) as Hret.
  destruct (Index_core w) as [r s]. cbn [fst snd] in *. subst r.
  destruct (Index_release_run w s) as (tr & ->).
  exists tr. reflexivity.
Qed.

(** * The claims *)

(** ** Navigation or location fails *)



(** ** Capture or upload fails *)




(** ** A probe of the battery throws *)

Lemma verdict_name (c : Check) : name (verdict c) = check_name c.
Proof. unfold verdict. destruct (first_thrown (check_probes c)); reflexivity. Qed.


Lemma in_select (p : Call -> bool) (ev : Event) (tr : list Event) :
  In ev tr -> p (call ev) = true -> In ev (select p tr).
Proof.
  induction tr as [|ev' tr IH]; cbn [In select]; [tauto|].
  intros [->|Hin] Hp.
  - rewrite Hp. left. reflexivity.
  - destruct (p (call ev')); [right|]; apply IH; assumption.
Qed.



(** ** The battery

    What the handler does when step 4 is reached. *)

(** C4, as stated, fails: in the world [calm] the eight probes are called
    in the order of [PROBES], and they contribute five results, not
    eight. *)
Lemma eight_probes_five_results :
  map call (select is_probe (Validated.calls calm no_event)) = PROBES /\
  length PROBES = 8%nat /\
  map name (skipn 3 (Validated.testResults (Validated.final calm no_event)))
    = [ "Validate trip type selector"; "Validate passengers and class selector";
        "Validate origin and destination fields"; "Validate date selectors";
        "Validate search button"; "Booking form validation" ] /\
  ~ (exists results elapsed,
       skipn 3 (Validated.testResults (Validated.final calm no_event))
         = results ++ [completion_entry elapsed] /\
       length results = length PROBES).
Proof.
  conj; try (vm_compute; reflexivity).
  intros (results & elapsed & Heq & Hlen).
  apply (f_equal (@length _)) in Heq.
  rewrite length_app, Hlen in Heq. vm_compute in Heq. discriminate Heq.
Qed.

(** C4, amended: the battery is five checks run in the order of the
    source, over eight probes issued in the order of [PROBES]; each check
    pushes exactly one result, its verdict, and makes its probes up to
    the first that throws.  When every visibility probe returns, all
    eight probes are made, and if the enabled probe of the search button
    then throws [e], the search-button entry alone is FAILURE. *)
Theorem battery_shape (w : World.t) (event : Json) :
  Validated.statusCode (Validated.final w event) = 200 ->
  (exists elapsed,
     skipn 3 (Validated.testResults (Validated.final w event))
       = map verdict (battery w) ++ [completion_entry elapsed]) /\
  length (battery w) = 5%nat /\
  concat (map (fun ch => map fst (check_probes ch)) (battery w)) = PROBES /\
  select is_probe (Validated.calls w event)
    = concat (map (fun ch => probed (check_probes ch)) (battery w)) /\
  sublist (map call (select is_probe (Validated.calls w event))) PROBES /\
  ((forall selector, World.toBeVisible w selector = inr tt) ->
   map call (select is_probe (Validated.calls w event)) = PROBES /\
   forall e, World.toBeEnabled w search = inl e ->
     map verdict (battery w)
       = [ success_of (check_trip_type w); success_of (check_passengers w);
           success_of (check_origin_destination w); success_of (check_dates w);
           failure_of (check_search_button w) e ]).
Proof.
  intros Hstatus.
  destruct (Validated_run w event)
    as (_ & _ & _ & [(H500 & _)
                |(_ & _ & _ & _ & Hprobes & file & content & _ & _ & _ & Hresults)]);
    [rewrite H500 in Hstatus; discriminate Hstatus|].
  rewrite Hprobes, Hresults. fold (battery_log w).
  split; [eexists; reflexivity|].
  split; [reflexivity|].
  split; [reflexivity|].
  split; [reflexivity|].
  split; [apply battery_log_sublist|].
  intros Hvisible.
  assert (Hlog : forall o : Outcome unit,
            World.toBeEnabled w search = o ->
            map call (battery_log w) = PROBES).
  { intros o Ho. unfold battery_log, battery, check_trip_type, check_passengers,
      check_origin_destination, check_dates, check_search_button, visible, enabled.
    cbn [map concat check_probes]. rewrite !Hvisible, Ho.
    destruct o as [e|[]]; reflexivity. }
  split; [apply (Hlog _ eq_refl)|].
  intros e Henabled.
  unfold battery, verdict, failure_of, success_of, check_trip_type, check_passengers,
    check_origin_destination, check_dates, check_search_button, visible, enabled.
  cbn [map check_probes first_thrown]. rewrite !Hvisible, Henabled. reflexivity.
Qed.

Lemma battery_shape_witness :
  map verdict (battery search_disabled)
  = [ success_of (check_trip_type search_disabled);
      success_of (check_passengers search_disabled);
      success_of (check_origin_destination search_disabled);
      success_of (check_dates search_disabled);
      failure_of (check_search_button search_disabled)
        (Error.mk "Locator expected to be enabled") ].
Proof.
  refine (proj2 (proj2 (proj2 (proj2 (proj2 (proj2
            (battery_shape search_disabled no_event _))))) _) _ _).
  - vm_compute. reflexivity.
  - intros selector. reflexivity.
  - reflexivity.
Defined.


(** In [no_origin] the origin probe throws: the destination probe of the
    same check is not made, the check fails, and the checks after it run
    as usual. *)
Example missing_origin_skips_destination :
  map call (select is_probe (Validated.calls no_origin no_event))
  = [ expect_toBeVisible trip_type TIMEOUT_SELECTOR;
      expect_toBeVisible passengers TIMEOUT_SELECTOR;
      expect_toBeVisible origin TIMEOUT_SELECTOR;
      expect_toBeVisible departure_date TIMEOUT_SELECTOR;
      expect_toBeVisible return_date TIMEOUT_SELECTOR;
      expect_toBeVisible search TIMEOUT_SELECTOR;
      expect_toBeEnabled search TIMEOUT_SELECTOR ] /\
  map status (skipn 3 (Validated.testResults (Validated.final no_origin no_event)))
  = [SUCCESS; SUCCESS; FAILURE; SUCCESS; SUCCESS; SUCCESS] /\
  Validated.statusCode (Validated.final no_origin no_event) = 200.
Proof. conj; vm_compute; reflexivity. Qed.

(** C6: in a run that reached the battery, whatever the verdicts of the
    five checks, the completion entry is pushed once, after them, last,
    and its status is SUCCESS. *)
Theorem battery_completion (w : World.t) (event : Json) :
  called is_probe (Validated.calls w event) = true ->
  exists elapsed,
    Validated.testResults (Validated.final w event)
      = firstn 3 (Validated.testResults (Validated.final w event))
        ++ map verdict (battery w) ++ [completion_entry elapsed] /\
    length (Validated.testResults (Validated.final w event)) = 9%nat /\
    last (Validated.testResults (Validated.final w event))
      = Some (completion_entry elapsed) /\
    status (completion_entry elapsed) = SUCCESS /\
    List.filter is_completion (Validated.testResults (Validated.final w event))
      = [completion_entry elapsed].
Proof.
  intros Hcalled.
  destruct (Validated_run w event)
    as (_ & _ & _ & [(_ & _ & _ & _ & Hnone & _)
                |(_ & _ & _ & _ & _ & file & content & _ & _ & _ & Hresults)]).
  - rewrite (select_called _ _ Hnone) in Hcalled. discriminate Hcalled.
  - rewrite Hresults. eexists. repeat split.
    cbn [app map battery List.filter]. unfold is_completion.
    rewrite !verdict_name. reflexivity.
Qed.

Lemma battery_completion_witness :
  exists elapsed,
    last (Validated.testResults (Validated.final no_origin no_event))
    = Some (completion_entry elapsed).
Proof.
  destruct (battery_completion no_origin no_event) as (elapsed & _ & _ & Hlast & _).
  - vm_compute. reflexivity.
  - exists elapsed. exact Hlast.
Defined.

(** ** The elapsed time of a fatal run *)

(** C10: in a run where the outer [catch] ran, [totalExecutionTimeMs] is
    still the 0 it was declared with, in the variables and in the body of
    the response, whose status is 500. *)
Theorem fatal_run_reports_no_elapsed_time (w : World.t) (event : Json) :
  called is_fatal_log (Validated.calls w event) = true ->
  Validated.statusCode (Validated.final w event) = 500 /\
  Validated.totalExecutionTimeMs (Validated.final w event) = 0 /\
  exists r timestamp,
    response (Validated.handler w event) = Some r /\
    APIGatewayProxyResult.statusCode r = 500 /\
    APIGatewayProxyResult.body r
      = JSON_stringify (Validated.report (Validated.final w event) timestamp event) /\
    Json_field "totalExecutionTimeMs"
      (Validated.report (Validated.final w event) timestamp event) = Some (JNum 0).
Proof.
  intros Hcatch.
  destruct (Validated_run w event)
    as ((timestamp & Hresponse) & _ & _ &
        [(Hstatus & Htotal & _)|(_ & _ & _ & Hnone & _)]).
  - repeat split; try assumption.
    eexists _, timestamp. split; [exact Hresponse|].
    cbn [APIGatewayProxyResult.statusCode APIGatewayProxyResult.body].
    split; [exact Hstatus|]. split; [reflexivity|].
    unfold Validated.report, Json_field. cbn [List.find fst snd bool_decide].
    rewrite Htotal. reflexivity.
  - rewrite Hnone in Hcatch. discriminate Hcatch.
Qed.

Lemma fatal_run_reports_no_elapsed_time_witness :
  Validated.totalExecutionTimeMs (Validated.final no_upload no_event) = 0.
Proof.
  refine (proj1 (proj2 (fatal_run_reports_no_elapsed_time no_upload no_event _))).
  vm_compute. reflexivity.
Defined.

(** In [no_upload] the clock was read seven times, 50 ms apart, before the
    upload threw; a run that completes reports the time between its first
    and its last reading. *)
Example elapsed_before_failure :
  ticks (snd (Validated.handler no_upload no_event)) = 8%nat /\
  World.clock no_upload 6 - World.clock no_upload 0 = 300 /\
  Validated.totalExecutionTimeMs (Validated.final no_upload no_event) = 0 /\
  Validated.totalExecutionTimeMs (Validated.final calm no_event) = 500.
Proof. conj; vm_compute; reflexivity. Qed.

Lemma completed_run_reports_elapsed_time (w : World.t) (event : Json) :
  Validated.statusCode (Validated.final w event) = 200 ->
  Validated.totalExecutionTimeMs (Validated.final w event)
  = World.clock w 10 - World.clock w 0.
Proof.
  intros Hstatus.
  destruct (Validated_run w event) as (_ & _ & _ & [(H500 & _)|(_ & Htotal & _)]).
  - rewrite H500 in Hstatus. discriminate Hstatus.
  - exact Htotal.
Qed.
(** ** The response *)

(** C7: whatever the collaborators answer, each handler returns a
    response (it does not throw); its status is 200 or 500, its headers
    are the JSON content type, and its body is the serialisation of an
    object whose [message], [timestamp], [screenshotUrl] and [event]
    properties are the final message, the time of the response, the final
    URL or [null], and the inbound event, whose serialisation occurs in
    the body as it is. *)
Theorem handler_always_responds (w : World.t) (event : Json) :
  (exists r timestamp,
     fst (Validated.handler w event) = inr r /\
     (APIGatewayProxyResult.statusCode r = 200 \/ APIGatewayProxyResult.statusCode r = 500) /\
     APIGatewayProxyResult.headers r = [("Content-Type", "application/json")] /\
     APIGatewayProxyResult.body r
       = JSON_stringify (Validated.report (Validated.final w event) timestamp event) /\
     Json_field "message" (Validated.report (Validated.final w event) timestamp event)
       = Some (JStr (Validated.message (Validated.final w event))) /\
     Json_field "timestamp" (Validated.report (Validated.final w event) timestamp event)
       = Some (JStr timestamp) /\
     Json_field "screenshotUrl" (Validated.report (Validated.final w event) timestamp event)
       = Some (Json_nullable (Validated.screenshotUrl (Validated.final w event))) /\
     Json_field "event" (Validated.report (Validated.final w event) timestamp event)
       = Some event /\
     contains (APIGatewayProxyResult.body r) (JSON_stringify event)) /\
  (exists r timestamp,
     fst (Index.handler w event) = inr r /\
     (APIGatewayProxyResult.statusCode r = 200 \/ APIGatewayProxyResult.statusCode r = 500) /\
     APIGatewayProxyResult.headers r = [("Content-Type", "application/json")] /\
     APIGatewayProxyResult.body r
       = JSON_stringify (Index.report (Index.final w event) timestamp event) /\
     Json_field "message" (Index.report (Index.final w event) timestamp event)
       = Some (JStr (Index.message (Index.final w event))) /\
     Json_field "timestamp" (Index.report (Index.final w event) timestamp event)
       = Some (JStr timestamp) /\
     Json_field "screenshotUrl" (Index.report (Index.final w event) timestamp event)
       = Some (Json_nullable (Index.screenshotUrl (Index.final w event))) /\
     Json_field "event" (Index.report (Index.final w event) timestamp event)
       = Some event /\
     contains (APIGatewayProxyResult.body r) (JSON_stringify event)).
Proof.
  split.
  - destruct (Validated_run w event) as ((timestamp & Hresponse) & _ & _ & Hstatus).
    eexists _, timestamp. split; [apply response_returned, Hresponse|].
    cbn [APIGatewayProxyResult.statusCode APIGatewayProxyResult.headers
         APIGatewayProxyResult.body].
    split; [destruct Hstatus as [(-> & _)|(-> & _)]; auto|].
    repeat split.
    apply (stringify_field _ "event"). cbn [In]. auto 10.
  - destruct (Index_run w event) as ((timestamp & Hresponse) & _ & _ & Hstatus).
    eexists _, timestamp. split; [apply response_returned, Hresponse|].
    cbn [APIGatewayProxyResult.statusCode APIGatewayProxyResult.headers
         APIGatewayProxyResult.body].
    split; [destruct Hstatus as [(-> & _)|(-> & _)]; auto|].
    repeat split.
    apply (stringify_field _ "event"). cbn [In]. auto 10.
Qed.

(** ** Closing the browser *)

(** C5: in both handlers [browser.close()] is called once in a run that
    launched the browser (and not at all otherwise), whichever way the
    [try] was left; when it throws, the error is logged with
    [console.error], and the response and the final values of the
    variables are what they are when it returns. *)
Theorem browser_is_always_closed (w : World.t) (event : Json) :
  (length (select is_close (Validated.calls w event))
     = (if returned is_launch (Validated.calls w event) then 1 else 0)%nat /\
   length (select is_close (Index.calls w event))
     = (if returned is_launch (Index.calls w event) then 1 else 0)%nat) /\
  (forall e, World.close w = inl e ->
     (returned is_launch (Validated.calls w event) = true ->
      In (close_error_log e) (Validated.calls w event)) /\
     (returned is_launch (Index.calls w event) = true ->
      In (close_error_log e) (Index.calls w event))) /\
  (forall o : Outcome unit,
     fst (Validated.handler (with_close o w) event) = fst (Validated.handler w event) /\
     Validated.final (with_close o w) event = Validated.final w event /\
     fst (Index.handler (with_close o w) event) = fst (Index.handler w event) /\
     Index.final (with_close o w) event = Index.final w event).
Proof.
  split; [|split].
  - split.
    + apply (Validated_run w event).
    + apply (Index_run w event).
  - intros e Hclose. split.
    + apply (Validated_run w event), Hclose.
    + apply (Index_run w event), Hclose.
  - intros o. unfold Validated.final, Index.final.
    destruct (Validated_handler_core w event) as [tr1 ->].
    destruct (Validated_handler_core (with_close o w) event) as [tr2 ->].
    destruct (Index_handler_core w event) as [tr3 ->].
    destruct (Index_handler_core (with_close o w) event) as [tr4 ->].
    repeat split; reflexivity.
Qed.

Lemma browser_is_always_closed_witness :
  In (close_error_log (Error.mk "Target closed")) (Validated.calls stuck_browser no_event).
Proof.
  refine (proj1 (proj1 (proj2 (browser_is_always_closed stuck_browser no_event))
                   (Error.mk "Target closed") eq_refl) _).
  vm_compute. reflexivity.
Defined.

(** In [stuck_browser] the close throws: the run still ends with status
    200 and the response of [calm]. *)
Example close_failure_is_swallowed :
  failed is_close (Validated.calls stuck_browser no_event) = true /\
  fst (Validated.handler stuck_browser no_event) = fst (Validated.handler calm no_event) /\
  failed is_close (Index.calls stuck_browser no_event) = true /\
  fst (Index.handler stuck_browser no_event) = fst (Index.handler calm no_event).
Proof. conj; vm_compute; reflexivity. Qed.

(** ** The name of the screenshot *)

Lemma replace_colon_period_clean (c : ascii) :
  replace_colon_period c <> ":"%char /\ replace_colon_period c <> "."%char.
Proof.
  unfold replace_colon_period.
  destruct (bool_decide_reflect (c = ":"%char)) as [->|Hcolon]; cbn [orb].
  - split; discriminate.
  - destruct (bool_decide_reflect (c = "."%char)) as [->|Hperiod].
    + split; discriminate.
    + split; assumption.
Qed.

Lemma replace_colons_periods_clean (s : string) (c : ascii) :
  In c (list_ascii_of_string (replace_colons_periods s)) ->
  c <> ":"%char /\ c <> "."%char.
Proof.
  induction s as [|x s IH]; cbn [replace_colons_periods list_ascii_of_string In].
  - intros [].
  - intros [<-|Hin]; [apply replace_colon_period_clean | apply IH, Hin].
Qed.

(** The replacement keeps the length and every other character. *)
Lemma replace_colons_periods_get (s : string) (n : nat) :
  String.get n (replace_colons_periods s) = replace_colon_period <$> String.get n s.
Proof.
  revert n. induction s as [|x s IH]; intros [|n]; cbn [replace_colons_periods String.get];
    try reflexivity.
  apply IH.
Qed.

Lemma replace_colons_periods_length (s : string) :
  String.length (replace_colons_periods s) = String.length s.
Proof.
  induction s as [|x s IH]; cbn [replace_colons_periods String.length]; [reflexivity|].
  rewrite IH. reflexivity.
Qed.

(** C8: in both handlers a non-null [screenshotUrl] is
    [https://{bucket}.s3.amazonaws.com/screenshots/{file}], where the
    bucket is [AWS_S3_BUCKET] or its default and the file embeds an ISO
    time of the clock with every colon and period replaced by a hyphen, so
    that this part holds neither character; the object was put under the
    key [screenshots/{file}] of that bucket with content type
    [image/png], and the put returned. *)
Theorem screenshot_url_shape (w : World.t) (event : Json) :
  (forall url,
     Validated.screenshotUrl (Validated.final w event) = Some url ->
     exists iso content region file,
       (exists n, iso = World.toISOString w (World.clock w n)) /\
       file = "aegean-flight-booking-" +:+ replace_colons_periods iso +:+ ".png" /\
       url = "https://" +:+ bucket_of w +:+ ".s3.amazonaws.com/screenshots/" +:+ file /\
       (forall c, In c (list_ascii_of_string (replace_colons_periods iso)) ->
                  c <> ":"%char /\ c <> "."%char) /\
       In (logged (s3Client_send region
                     {| Bucket := bucket_of w; Key := "screenshots/" +:+ file;
                        Body := content; ContentType := "image/png" |}) None)
          (Validated.calls w event)) /\
  (forall url,
     Index.screenshotUrl (Index.final w event) = Some url ->
     exists iso content region file,
       (exists n, iso = World.toISOString w (World.clock w n)) /\
       file = "-aegean-flight-booking-" +:+ replace_colons_periods iso +:+ ".png" /\
       url = "https://" +:+ bucket_of w +:+ ".s3.amazonaws.com/screenshots/" +:+ file /\
       (forall c, In c (list_ascii_of_string (replace_colons_periods iso)) ->
                  c <> ":"%char /\ c <> "."%char) /\
       In (logged (s3Client_send region
                     {| Bucket := bucket_of w; Key := "screenshots/" +:+ file;
                        Body := content; ContentType := "image/png" |}) None)
          (Index.calls w event)).
Proof.
  split; intros url Hurl.
  - destruct (Validated_run w event)
      as (_ & _ & _ & [(_ & _ & Hnone & _)
                      |(_ & _ & _ & _ & _ & file & content & -> & Hsome & Hsent & _)]).
    + rewrite Hnone in Hurl. discriminate Hurl.
    + rewrite Hsome in Hurl. injection Hurl as <-.
      eexists _, content, _, _. split; [eexists; reflexivity|].
      split; [reflexivity|]. split; [reflexivity|].
      split; [apply replace_colons_periods_clean | exact Hsent].
  - destruct (Index_run w event)
      as (_ & _ & _ & [(_ & Hnone & _)|(_ & _ & file & content & -> & Hsome & Hsent)]).
    + rewrite Hnone in Hurl. discriminate Hurl.
    + rewrite Hsome in Hurl. injection Hurl as <-.
      eexists _, content, _, _. split; [eexists; reflexivity|].
      split; [reflexivity|]. split; [reflexivity|].
      split; [apply replace_colons_periods_clean | exact Hsent].
Qed.

Lemma screenshot_url_shape_witness :
  exists iso content region file,
    (exists n, iso = World.toISOString calm (World.clock calm n)) /\
    file = "aegean-flight-booking-" +:+ replace_colons_periods iso +:+ ".png" /\
    "https://technical-playwright-result.s3.amazonaws.com/screenshots/aegean-flight-booking-2024-01-15T10-30-45-123Z.png"
    = "https://" +:+ bucket_of calm +:+ ".s3.amazonaws.com/screenshots/" +:+ file /\
    (forall c, In c (list_ascii_of_string (replace_colons_periods iso)) ->
               c <> ":"%char /\ c <> "."%char) /\
    In (logged (s3Client_send region
                  {| Bucket := bucket_of calm; Key := "screenshots/" +:+ file;
                     Body := content; ContentType := "image/png" |}) None)
       (Validated.calls calm no_event).
Proof.
  apply (proj1 (screenshot_url_shape calm no_event)).
  vm_compute. reflexivity.
Defined.

(** ** The prefix of the filename *)

(** The handler reads the environment at [AWS_REGION] and
    [AWS_S3_BUCKET] only. *)
Lemma Index_handler_env (w : World.t) (event : Json) (env : gmap string string) :
  env !! "AWS_REGION" = World.env w !! "AWS_REGION" ->
  env !! "AWS_S3_BUCKET" = World.env w !! "AWS_S3_BUCKET" ->
  Index.handler (with_env env w) event = Index.handler w event.
Proof.
  intros Hregion Hbucket.
  unfold Index.handler, Index.handler_body, Index.pipeline, Index.filename_of,
    process_env, comma.
  cbn [World.env with_env].
  rewrite Hregion, Hbucket. reflexivity.
Qed.

(** C9: in [src/index.ts] the comma expression yields its second
    operand, the empty string, so the filename does not depend on
    [PREFIX]: for any two values of it, set or unset, in an otherwise
    equal world, the filename is the same and so is the whole run, the
    key of the upload with it. *)
Theorem prefix_is_ignored (w : World.t) (event : Json) (v1 v2 : option string) :
  comma v1 "" = "" /\
  (forall timestamp,
     Index.filename_of (with_PREFIX v1 w) timestamp
     = Index.filename_of (with_PREFIX v2 w) timestamp) /\
  Index.handler (with_PREFIX v1 w) event = Index.handler (with_PREFIX v2 w) event /\
  select is_capture (Index.calls (with_PREFIX v1 w) event)
  = select is_capture (Index.calls (with_PREFIX v2 w) event).
Proof.
  assert (H : forall v, Index.handler (with_PREFIX v w) event = Index.handler w event).
  { intros v. apply Index_handler_env; unfold with_PREFIX; destruct v;
      first [apply lookup_insert_ne | apply lookup_delete_ne]; discriminate. }
  split; [reflexivity|]. split; [reflexivity|].
  unfold Index.calls. rewrite !H. split; reflexivity.
Qed.

(** The same for any two environments that agree off [PREFIX]. *)
Lemma prefix_is_ignored_in_any_environment
    (w : World.t) (event : Json) (env1 env2 : gmap string string) :
  delete "PREFIX" env1 = delete "PREFIX" env2 ->
  Index.handler (with_env env1 w) event = Index.handler (with_env env2 w) event.
Proof.
  intros Hagree.
  assert (Hoff : forall k, k <> "PREFIX" -> env1 !! k = env2 !! k).
  { intros k Hk.
    rewrite <- (lookup_delete_ne env1 "PREFIX" k), <- (lookup_delete_ne env2 "PREFIX" k)
      by congruence.
    rewrite Hagree. reflexivity. }
  rewrite <- (Index_handler_env (with_env env2 w) event env1).
  - reflexivity.
  - apply Hoff. discriminate.
  - apply Hoff. discriminate.
Qed.

(** With [PREFIX] set, the name still starts with the hyphen alone. *)
Example prefix_is_dropped :
  Index.filename_of (with_PREFIX (Some "run42") calm) "T" = "-aegean-flight-booking-T.png" /\
  Index.screenshotUrl (Index.final (with_PREFIX (Some "run42") calm) no_event)
  = Some "https://technical-playwright-result.s3.amazonaws.com/screenshots/-aegean-flight-booking-2024-01-15T10-30-45-123Z.png".
Proof. split; vm_compute; reflexivity. Qed.

(** * More on the handlers *)

(** ** [ensureDirectoriesExist] *)

Lemma preparation_setup_log (w : World.t) : preparation w = setup_log w.
Proof. unfold preparation. rewrite ensureDirectoriesExist_run. reflexivity. Qed.

Lemma dir_log_mkdir (w : World.t) (dir : string) :
  map call (select is_mkdir (dir_log w dir)) = [fs_mkdir dir].
Proof.
  unfold dir_log.
  destruct (World.mkdir w dir); [|destruct (World.chmod w dir)]; reflexivity.
Qed.

Lemma dir_log_chmod (w : World.t) (dir d : string) (mode : Z) :
  In (fs_chmod d mode) (map call (dir_log w dir)) <->
  d = dir /\ mode = 511 /\ World.mkdir w dir = inr tt.
Proof.
  unfold dir_log.
  destruct (World.mkdir w dir) as [e|[]]; [|destruct (World.chmod w dir) as [e|[]]];
    cbn [map call logged note In]; split.
  all: try (intros [H|[H|[H|[]]]]; try discriminate H).
  all: try (intros [H|[H|[]]]; try discriminate H).
  all: try (injection H as <- <-; auto).
  all: try (intros (_ & _ & H); discriminate H).
  all: intros (-> & -> & _); auto.
Qed.

Lemma dir_log_notes (w : World.t) (dir : string) :
  map call (select is_console_log (dir_log w dir)) = note_of w dir.
Proof.
  unfold dir_log, note_of, first_failure.
  destruct (World.mkdir w dir); [|destruct (World.chmod w dir)]; reflexivity.
Qed.

(** X1: from any state, [ensureDirectoriesExist] returns, whatever
    [mkdir] and [chmod] do; it leaves the variables and the clock alone
    and adds the same calls to the log; it asks for the three
    directories [/tmp], [/tmp/screenshots] and [/tmp/.cache], in this
    order, each once; and it calls nothing but [mkdir], [chmod] and
    [console.log]. *)
Theorem ensureDirectoriesExist_is_harmless {L} (w : World.t) (s : State L) :
  ensureDirectoriesExist w s
    = (inr tt, mkState (locals s) (ticks s) (log s ++ preparation w)) /\
  map call (select is_mkdir (preparation w)) = map fs_mkdir DIRS /\
  Forall (fun ev => is_setup (call ev) = true) (preparation w).
Proof.
  rewrite preparation_setup_log. split; [apply ensureDirectoriesExist_run|].
  split; [|apply setup_log_is_setup].
  unfold setup_log. rewrite !select_app, !map_app, !dir_log_mkdir. reflexivity.
Qed.

(** X2: [ensureDirectoriesExist] changes the mode of a directory exactly
    when it is one of the three and its [mkdir] returned, and the mode is
    then [0o777]. *)
Theorem chmod_follows_mkdir (w : World.t) (dir : string) (mode : Z) :
  In (fs_chmod dir mode) (map call (preparation w)) <->
  In dir DIRS /\ mode = 511 /\ World.mkdir w dir = inr tt.
Proof.
  rewrite preparation_setup_log. unfold setup_log, DIRS.
  rewrite !map_app, !in_app_iff, !dir_log_chmod. cbn [In].
  split.
  - intros [(-> & H)|[(-> & H)|(-> & H)]]; auto 6.
  - intros ([<-|[<-|[<-|[]]]] & H); auto.
Qed.

(** X3: what [ensureDirectoriesExist] writes to the console is one note
    for each directory whose [mkdir] or [chmod] threw, in the order of the
    directories, with the message of the first error of that directory. *)
Theorem failures_are_noted (w : World.t) :
  map call (select is_console_log (preparation w)) = flat_map (note_of w) DIRS.
Proof.
  rewrite preparation_setup_log. unfold setup_log, DIRS. cbn [flat_map].
  rewrite !select_app, !map_app, !dir_log_notes, app_nil_r. reflexivity.
Qed.

(** ** Running a handler again in a world that answers alike *)

Lemma wp_invoke_returned {L A} (c : Call) (o : Outcome A) (a : A) (s : State L) Q :
  o = inr a ->
  Q (inr a) (mkState (locals s) (ticks s) (log s ++ [logged c None])) ->
  wp (invoke c o) s Q.
Proof. intros ->. exact (fun H => H). Qed.

Lemma wp_invoke_thrown {L A} (c : Call) (o : Outcome A) (e : Error.t) (s : State L) Q :
  o = inl e ->
  Q (inl e) (mkState (locals s) (ticks s) (log s ++ [logged c (Some e)])) ->
  wp (invoke c o) s Q.
Proof. intros ->. exact (fun H => H). Qed.

(** A step of a run in which what the calls answer is known from the
    hypotheses. *)
Ltac step_known :=
  lazymatch goal with
  | |- wp (invoke _ (inr _)) _ _ => apply wp_invoke_returns; reduce_state
  | |- wp (invoke ?c ?o) _ _ =>
      match goal with
      | H : _ = inr ?a |- _ => refine (wp_invoke_returned c o a _ _ H _); reduce_state
      | H : _ = inl ?e |- _ => refine (wp_invoke_thrown c o e _ _ H _); reduce_state
      end
  | |- wp (if negb true then _ else _) _ _ => cbn [negb]
  | |- wp (if negb false then _ else _) _ _ => cbn [negb]
  | |- _ => step
  end.

Ltac run_known := repeat step_known.

Ltac rerun_validated w event :=
  pattern (Validated.handler w event);
  lazymatch goal with
  | |- ?P _ =>
      let Q := fresh "Q" in
      set (Q := P); apply Validated_handler_wp;
      unfold Validated.declarations;
      run_known;
      subst Q; reduce_run
  end.

Ltac rerun_index w event :=
  pattern (Index.handler w event);
  lazymatch goal with
  | |- ?P _ =>
      let Q := fresh "Q" in
      set (Q := P); apply Index_handler_wp;
      unfold Index.declarations;
      run_known;
      subst Q; reduce_run
  end.

(** X4: neither handler depends on what [mkdir] and [chmod] do: with any
    other answers of the two, the response and the final variables are
    the same. *)
Theorem preparation_failures_are_not_fatal
    (w : World.t) (event : Json) (mkdir chmod : string -> Outcome unit) :
  fst (Validated.handler (with_fs mkdir chmod w) event) = fst (Validated.handler w event) /\
  Validated.final (with_fs mkdir chmod w) event = Validated.final w event /\
  fst (Index.handler (with_fs mkdir chmod w) event) = fst (Index.handler w event) /\
  Index.final (with_fs mkdir chmod w) event = Index.final w event.
Proof.
  assert (HV : fst (Validated.handler (with_fs mkdir chmod w) event)
               = fst (Validated.handler w event) /\
               Validated.final (with_fs mkdir chmod w) event = Validated.final w event).
  { unfold Validated.final.
    run_validated w event.
    all: rerun_validated (with_fs mkdir chmod w) event.
    all: split; reflexivity. }
  assert (HI : fst (Index.handler (with_fs mkdir chmod w) event)
               = fst (Index.handler w event) /\
               Index.final (with_fs mkdir chmod w) event = Index.final w event).
  { unfold Index.final.
    run_index w event.
    all: rerun_index (with_fs mkdir chmod w) event.
    all: split; reflexivity. }
  tauto.
Qed.

(** X5: what the probes of the battery answer decides the verdicts and
    nothing else: with any other answers, the status code, the message,
    the screenshot URL, the total time, the first three results, the
    number of results and the last result are the same. *)
Theorem verdicts_do_not_touch_the_status
    (w : World.t) (event : Json) (toBeVisible toBeEnabled : string -> Outcome unit) :
  let w' := with_probes toBeVisible toBeEnabled w in
  Validated.statusCode (Validated.final w' event)
    = Validated.statusCode (Validated.final w event) /\
  Validated.message (Validated.final w' event)
    = Validated.message (Validated.final w event) /\
  Validated.screenshotUrl (Validated.final w' event)
    = Validated.screenshotUrl (Validated.final w event) /\
  Validated.totalExecutionTimeMs (Validated.final w' event)
    = Validated.totalExecutionTimeMs (Validated.final w event) /\
  firstn 3 (Validated.testResults (Validated.final w' event))
    = firstn 3 (Validated.testResults (Validated.final w event)) /\
  length (Validated.testResults (Validated.final w' event))
    = length (Validated.testResults (Validated.final w event)) /\
  last (Validated.testResults (Validated.final w' event))
    = last (Validated.testResults (Validated.final w event)).
Proof.
  intros w'. subst w'. unfold Validated.final.
  run_validated w event.
  all: rerun_validated (with_probes toBeVisible toBeEnabled w) event.
  all: conj; reflexivity.
Qed.

(** ** What the response says *)

Ltac read_all :=
  rewrite <- ?app_assoc; cbn [app];
  repeat progress
    (rewrite ?called_app, ?returned_app, ?failed_app, ?select_app;
     rewrite ?called_setup, ?returned_setup, ?failed_setup, ?select_setup by disjoint;
     rewrite ?called_probed, ?returned_probed, ?failed_probed, ?select_probed_none
       by first [disjoint | probes];
     rewrite ?select_probed by probes;
     cbn [called returned failed select call thrown logged is_thrown
          is_probe is_close is_launch is_goto is_waitForSelector is_capture is_setup
          is_fatal_log is_access is_query is_send is_screenshot is_newContext
          andb orb negb app]).

Ltac read_all_in H :=
  rewrite <- ?app_assoc in H; cbn [app] in H;
  repeat progress
    (rewrite ?called_app, ?returned_app, ?failed_app, ?select_app in H;
     rewrite ?called_setup, ?returned_setup, ?failed_setup, ?select_setup in H by disjoint;
     rewrite ?called_probed, ?returned_probed, ?failed_probed, ?select_probed_none in H
       by first [disjoint | probes];
     rewrite ?select_probed in H by probes;
     cbn [called returned failed select call thrown logged is_thrown
          is_probe is_close is_launch is_goto is_waitForSelector is_capture is_setup
          is_fatal_log is_access is_query is_send is_screenshot is_newContext
          andb orb negb app] in H).

(** X6: the parts of a response agree.  In the handler with the battery
    the status is 200 exactly when the message is [Success], exactly when
    there is a screenshot URL, and exactly when the last result is the
    completion entry; it is 500 exactly when the last result is the fatal
    entry.  In the handler of [src/index.ts] the status is 200 exactly
    when the message is [Success] and exactly when there is a URL. *)
Theorem status_tells_the_outcome (w : World.t) (event : Json) :
  (Validated.statusCode (Validated.final w event) = 200 <->
   Validated.message (Validated.final w event) = "Success") /\
  (Validated.statusCode (Validated.final w event) = 200 <->
   Validated.screenshotUrl (Validated.final w event) <> None) /\
  (Validated.statusCode (Validated.final w event) = 200 <->
   exists elapsed,
     last (Validated.testResults (Validated.final w event))
     = Some (completion_entry elapsed)) /\
  (Validated.statusCode (Validated.final w event) = 500 <->
   exists e,
     last (Validated.testResults (Validated.final w event)) = Some (fatal_entry e)) /\
  (Index.statusCode (Index.final w event) = 200 <->
   Index.message (Index.final w event) = "Success") /\
  (Index.statusCode (Index.final w event) = 200 <->
   Index.screenshotUrl (Index.final w event) <> None).
Proof.
  destruct (Validated_run w event)
    as (_ & _ & _ & [(Hs & _ & Hu & _ & _ & e & Hm & Hl)
                    |(Hs & _ & Hm & _ & _ & file & content & _ & Hu & _ & Hr)]);
  destruct (Index_run w event)
    as (_ & _ & _ & [(Is & Iu & ie & Im)|(Is & Im & ifile & icontent & _ & Iu & _)]).
  all: rewrite Hs, Hm, Hu, Is, Im, Iu, ?Hl, ?Hr.
  all: conj; split; try reflexivity; try discriminate; try congruence.
  all: try (intros H; cbv [String.append] in H; discriminate H).
  all: try (intros [x H]; discriminate H).
  all: try (eexists; reflexivity).
Qed.

(** X7: when the clock does not run backwards, the four timed steps of a
    run that completed (navigation, location, capture, validation) took
    no negative time, and together no more than the total the response
    reports. *)
Theorem steps_fit_in_the_total (w : World.t) (event : Json) :
  monotone (World.clock w) ->
  Validated.statusCode (Validated.final w event) = 200 ->
  exists navigate locate capture validate,
    map executionTimeMs (firstn 3 (Validated.testResults (Validated.final w event)))
      = [Some navigate; Some locate; Some capture] /\
    (executionTimeMs <$> last (Validated.testResults (Validated.final w event)))
      = Some (Some validate) /\
    0 <= navigate /\ 0 <= locate /\ 0 <= capture /\ 0 <= validate /\
    navigate + locate + capture + validate
      <= Validated.totalExecutionTimeMs (Validated.final w event).
Proof.
  intros Hmono Hstatus.
  destruct (Validated_run w event)
    as (_ & _ & _ & [(H500 & _)
                    |(_ & Htotal & _ & _ & _ & file & content & _ & _ & _ & Hresults)]);
    [rewrite H500 in Hstatus; discriminate Hstatus|].
  rewrite Hresults, Htotal.
  eexists _, _, _, _. split; [reflexivity|]. split; [reflexivity|].
  assert (Hstep : forall n, World.clock w n <= World.clock w (S n))
    by (intros n; apply Hmono; lia).
  pose proof (Hstep 0%nat). pose proof (Hstep 1%nat). pose proof (Hstep 2%nat).
  pose proof (Hstep 3%nat). pose proof (Hstep 4%nat). pose proof (Hstep 5%nat).
  pose proof (Hstep 6%nat). pose proof (Hstep 7%nat). pose proof (Hstep 8%nat).
  pose proof (Hstep 9%nat).
  lia.
Qed.

Lemma steps_fit_in_the_total_witness :
  exists navigate locate capture validate,
    map executionTimeMs (firstn 3 (Validated.testResults (Validated.final calm no_event)))
      = [Some navigate; Some locate; Some capture] /\
    (executionTimeMs <$> last (Validated.testResults (Validated.final calm no_event)))
      = Some (Some validate) /\
    0 <= navigate /\ 0 <= locate /\ 0 <= capture /\ 0 <= validate /\
    navigate + locate + capture + validate
      <= Validated.totalExecutionTimeMs (Validated.final calm no_event).
Proof.
  apply (steps_fit_in_the_total calm no_event).
  - intros m n Hmn. cbn [World.clock calm staged]. lia.
  - vm_compute. reflexivity.
Defined.

(** ** The failures between the page and the upload *)

(** X8: in the handler of [src/index.ts], when [fs.access] of the
    screenshot file throws, the error is logged and replaced: the status
    is 500, the message is [Error: Screenshot file not found at] with the
    path, there is no URL and nothing is sent to S3. *)
Theorem missing_file_is_reported (w : World.t) (event : Json) :
  failed is_access (Index.calls w event) = true ->
  Index.statusCode (Index.final w event) = 500 /\
  Index.message (Index.final w event)
    = "Error: Screenshot file not found at " +:+ SCREENSHOT_PATH /\
  Index.screenshotUrl (Index.final w event) = None /\
  called is_send (Index.calls w event) = false /\
  exists e,
    World.access w SCREENSHOT_PATH = inl e /\
    In (logged (console_error
                  [LText ("Error accessing screenshot file: " +:+ Error.message e)]) None)
       (Index.calls w event).
Proof.
  run_index w event.
  all: intros H; read_all_in H; try discriminate H.
  all: split; [reflexivity|]. all: split; [reflexivity|]. all: split; [reflexivity|].
  all: split; [read_all; reflexivity|].
  all: eexists; split; [eassumption|].
  all: rewrite <- ?app_assoc; cbn [app]; apply in_or_app; right; find_entry.
Qed.

Lemma missing_file_is_reported_witness :
  Index.message (Index.final no_file no_event)
  = "Error: Screenshot file not found at " +:+ SCREENSHOT_PATH.
Proof.
  refine (proj1 (proj2 (missing_file_is_reported no_file no_event _))).
  vm_compute. reflexivity.
Defined.

(** X9: in the handler with the battery, when [waitForSelector] resolves
    to [null] the run is fatal with the message [Flight booking component
    not found.]; the location step was already recorded as a success, so
    the results are the navigation entry, the location entry and the
    fatal entry; no screenshot is taken. *)
Theorem missing_component_is_fatal (w : World.t) (event : Json) :
  returned is_waitForSelector (Validated.calls w event) = true ->
  World.waitForSelector w PARAMETERS.selector = inr false ->
  Validated.statusCode (Validated.final w event) = 500 /\
  Validated.message (Validated.final w event)
    = "Fatal error: Flight booking component not found." /\
  (exists navigate locate,
     Validated.testResults (Validated.final w event)
     = [ navigate_entry navigate; locate_entry locate;
         fatal_entry (Error.mk "Flight booking component not found.") ]) /\
  called is_screenshot (Validated.calls w event) = false.
Proof.
  run_validated w event.
  all: intros H Hnull; read_all_in H; try discriminate H.
  all: try match goal with
       | Hw : World.waitForSelector _ _ = inr true |- _ =>
           rewrite Hw in Hnull; discriminate Hnull
       end.
  all: split; [reflexivity|]. all: split; [reflexivity|].
  all: split; [eexists _, _; reflexivity|].
  all: read_all; reflexivity.
Qed.

Lemma missing_component_is_fatal_witness :
  Validated.message (Validated.final no_component no_event)
  = "Fatal error: Flight booking component not found.".
Proof.
  refine (proj1 (proj2 (missing_component_is_fatal no_component no_event _ _))).
  - vm_compute. reflexivity.
  - reflexivity.
Defined.

(** X10: in the handler of [src/index.ts], when [page.$] resolves to
    [null] the status is 500 and the message is [Error: Flight booking
    component not found]; no screenshot is taken and nothing is sent. *)
Theorem missing_element_is_reported (w : World.t) (event : Json) :
  returned is_query (Index.calls w event) = true ->
  World.query w PARAMETERS.selector = inr false ->
  Index.statusCode (Index.final w event) = 500 /\
  Index.message (Index.final w event) = "Error: Flight booking component not found" /\
  called is_screenshot (Index.calls w event) = false /\
  called is_send (Index.calls w event) = false.
Proof.
  run_index w event.
  all: intros H Hnull; read_all_in H; try discriminate H.
  all: try match goal with
       | Hw : World.query _ _ = inr true |- _ =>
           rewrite Hw in Hnull; discriminate Hnull
       end.
  all: split; [reflexivity|]. all: split; [reflexivity|].
  all: split; read_all; reflexivity.
Qed.

Lemma missing_element_is_reported_witness :
  Index.message (Index.final no_element no_event)
  = "Error: Flight booking component not found".
Proof.
  refine (proj1 (proj2 (missing_element_is_reported no_element no_event _ _))).
  - vm_compute. reflexivity.
  - reflexivity.
Defined.

(** ** The upload *)

Lemma or_default_nonempty (a : option string) (b : string) :
  b <> "" -> or_default a b <> "".
Proof.
  intros Hb. unfold or_default. destruct a as [s|]; [|exact Hb].
  destruct (bool_decide_reflect (s = "")); assumption.
Qed.

(** X11: a run sends at most one object to S3.  Its bucket is
    [AWS_S3_BUCKET] or the default and is never empty, its content type
    is [image/png], its key is [screenshots/] and the file name, and its
    body is what reading the screenshot file returned.  The handler with
    the battery gives the client [AWS_REGION] as it is, possibly
    undefined; the handler of [src/index.ts] falls back to [us-east-2],
    so that its region is never empty. *)
Theorem upload_parameters (w : World.t) (event : Json) :
  ((forall region command o,
      In (logged (s3Client_send region command) o) (Validated.calls w event) ->
      region = World.env w !! "AWS_REGION" /\
      Bucket command = bucket_of w /\ Bucket command <> "" /\
      ContentType command = "image/png" /\
      (exists iso, Key command = "screenshots/" +:+ Validated_file iso) /\
      World.readFile w SCREENSHOT_PATH = inr (Body command)) /\
   (length (select is_send (Validated.calls w event)) <= 1)%nat) /\
  ((forall region command o,
      In (logged (s3Client_send region command) o) (Index.calls w event) ->
      region = Some (or_default (World.env w !! "AWS_REGION") "us-east-2") /\
      region <> Some "" /\
      Bucket command = bucket_of w /\ Bucket command <> "" /\
      ContentType command = "image/png" /\
      (exists timestamp, Key command = "screenshots/" +:+ Index.filename_of w timestamp) /\
      World.readFile w SCREENSHOT_PATH = inr (Body command)) /\
   (length (select is_send (Index.calls w event)) <= 1)%nat).
Proof.
  assert (Hbucket : bucket_of w <> "") by (apply or_default_nonempty; discriminate).
  assert (Hregion : Some (or_default (World.env w !! "AWS_REGION") "us-east-2") <> Some "").
  { intros [= H]. revert H. apply or_default_nonempty. discriminate. }
  split.
  - run_validated w event.
    all: (split; [|read_all; cbn [length]; lia]).
    all: intros region command o Hin.
    all: pose proof (in_select is_send _ _ Hin eq_refl) as Hsel; clear Hin.
    all: read_all_in Hsel; try (destruct Hsel; fail).
    all: destruct Hsel as [Heq|[]]; injection Heq as <- <- _.
    all: cbn [Bucket ContentType Key Body].
    all: conj; try reflexivity; try exact Hbucket; try assumption; eexists; reflexivity.
  - run_index w event.
    all: (split; [|read_all; cbn [length]; lia]).
    all: intros region command o Hin.
    all: pose proof (in_select is_send _ _ Hin eq_refl) as Hsel; clear Hin.
    all: read_all_in Hsel; try (destruct Hsel; fail).
    all: destruct Hsel as [Heq|[]]; injection Heq as <- <- _.
    all: cbn [Bucket ContentType Key Body].
    all: conj; try reflexivity; try exact Hbucket; try exact Hregion; try assumption;
      eexists; reflexivity.
Qed.

(** ** The order of the calls *)

(** X12: the calls of a run of the handler with the battery that ends
    with status 200 are, in this order: those of
    [ensureDirectoriesExist]; [executablePath], [launch], [newContext],
    [newPage], [setDefaultNavigationTimeout], [goto], [waitForSelector],
    [screenshot], [readFile] and [send], each with the arguments of the
    source, and all of which returned; the probes of the battery; and the
    closing of the browser. *)
Theorem validated_run_protocol (w : World.t) (event : Json) :
  Validated.statusCode (Validated.final w event) = 200 ->
  exists path content,
    World.executablePath w = inr path /\
    World.readFile w SCREENSHOT_PATH = inr content /\
    Validated.calls w event
    = setup_log w
      ++ returns
           [ chromium_executablePath;
             playwright_launch (BROWSER_ARGS w) path;
             browser_newContext VIEWPORT USER_AGENT;
             context_newPage;
             page_setDefaultNavigationTimeout TIMEOUT_NAVIGATION;
             page_goto PARAMETERS.url "domcontentloaded" TIMEOUT_NAVIGATION;
             page_waitForSelector PARAMETERS.selector "visible" TIMEOUT_SELECTOR;
             element_screenshot SCREENSHOT_PATH;
             fs_readFile SCREENSHOT_PATH;
             s3Client_send (World.env w !! "AWS_REGION")
               (put_of w (Validated_file (World.toISOString w (World.clock w 6))) content) ]
      ++ battery_log w
      ++ closing w.
Proof.
  run_validated w event.
  all: intros Hs; try discriminate Hs.
  all: eexists _, _; split; [eassumption|]; split; [eassumption|].
  all: unfold closing;
    match goal with H : World.close _ = _ |- _ => rewrite H end.
  all: unfold battery_log, battery, returns; cbn [map concat app].
  all: rewrite <- ?app_assoc; cbn [app]; reflexivity.
Qed.

Lemma validated_run_protocol_witness :
  exists path content,
    World.executablePath calm = inr path /\
    World.readFile calm SCREENSHOT_PATH = inr content /\
    Validated.calls calm no_event
    = setup_log calm
      ++ returns
           [ chromium_executablePath;
             playwright_launch (BROWSER_ARGS calm) path;
             browser_newContext VIEWPORT USER_AGENT;
             context_newPage;
             page_setDefaultNavigationTimeout TIMEOUT_NAVIGATION;
             page_goto PARAMETERS.url "domcontentloaded" TIMEOUT_NAVIGATION;
             page_waitForSelector PARAMETERS.selector "visible" TIMEOUT_SELECTOR;
             element_screenshot SCREENSHOT_PATH;
             fs_readFile SCREENSHOT_PATH;
             s3Client_send (World.env calm !! "AWS_REGION")
               (put_of calm (Validated_file (World.toISOString calm (World.clock calm 6)))
                  content) ]
      ++ battery_log calm
      ++ closing calm.
Proof.
  apply (validated_run_protocol calm no_event). vm_compute. reflexivity.
Defined.

(** X13: the calls of a run of the handler of [src/index.ts] that ends
    with status 200 are, in this order: those of
    [ensureDirectoriesExist]; [executablePath], [launch], [newContext],
    [newPage], [setDefaultNavigationTimeout], [goto], [waitForSelector],
    [page.$], [screenshot], [access], [readFile] and [send], each with
    the arguments of the source, and all of which returned; and the
    closing of the browser. *)
Theorem index_run_protocol (w : World.t) (event : Json) :
  Index.statusCode (Index.final w event) = 200 ->
  exists path content,
    World.executablePath w = inr path /\
    World.readFile w SCREENSHOT_PATH = inr content /\
    Index.calls w event
    = setup_log w
      ++ returns
           [ chromium_executablePath;
             playwright_launch (BROWSER_ARGS w) path;
             browser_newContext VIEWPORT USER_AGENT;
             context_newPage;
             page_setDefaultNavigationTimeout TIMEOUT_NAVIGATION;
             page_goto PARAMETERS.url "domcontentloaded" TIMEOUT_NAVIGATION;
             page_waitForSelector PARAMETERS.selector "visible" TIMEOUT_SELECTOR;
             page_query PARAMETERS.selector;
             element_screenshot SCREENSHOT_PATH;
             fs_access SCREENSHOT_PATH;
             fs_readFile SCREENSHOT_PATH;
             s3Client_send (Some (or_default (World.env w !! "AWS_REGION") "us-east-2"))
               (put_of w (Index.filename_of w
                            (replace_colons_periods (World.toISOString w (World.clock w 0))))
                  content) ]
      ++ closing w.
Proof.
  run_index w event.
  all: intros Hs; try discriminate Hs.
  all: eexists _, _; split; [eassumption|]; split; [eassumption|].
  all: unfold closing;
    match goal with H : World.close _ = _ |- _ => rewrite H end.
  all: unfold returns; cbn [map concat app].
  all: rewrite <- ?app_assoc; cbn [app]; reflexivity.
Qed.

Lemma index_run_protocol_witness :
  exists path content,
    World.executablePath calm = inr path /\
    World.readFile calm SCREENSHOT_PATH = inr content /\
    Index.calls calm no_event
    = setup_log calm
      ++ returns
           [ chromium_executablePath;
             playwright_launch (BROWSER_ARGS calm) path;
             browser_newContext VIEWPORT USER_AGENT;
             context_newPage;
             page_setDefaultNavigationTimeout TIMEOUT_NAVIGATION;
             page_goto PARAMETERS.url "domcontentloaded" TIMEOUT_NAVIGATION;
             page_waitForSelector PARAMETERS.selector "visible" TIMEOUT_SELECTOR;
             page_query PARAMETERS.selector;
             element_screenshot SCREENSHOT_PATH;
             fs_access SCREENSHOT_PATH;
             fs_readFile SCREENSHOT_PATH;
             s3Client_send (Some (or_default (World.env calm !! "AWS_REGION") "us-east-2"))
               (put_of calm (Index.filename_of calm
                            (replace_colons_periods
                               (World.toISOString calm (World.clock calm 0))))
                  content) ]
      ++ closing calm.
Proof.
  apply (index_run_protocol calm no_event). vm_compute. reflexivity.
Defined.

Lemma at_stage_setup (s : Stage) (c : Call) : is_setup c = true -> at_stage s c = false.
Proof. destruct c; intros H; (discriminate H || reflexivity). Qed.

Lemma at_stage_probe (s : Stage) :
  s <> probing -> forall c, is_probe c = true -> at_stage s c = false.
Proof.
  intros Hs c. destruct c; intros H; try discriminate H; try reflexivity.
  all: destruct s; try reflexivity; contradiction Hs; reflexivity.
Qed.

Ltac read_stages :=
  rewrite <- ?app_assoc; cbn [app];
  repeat progress
    (rewrite ?called_app, ?returned_app;
     rewrite ?called_setup, ?returned_setup by apply at_stage_setup;
     rewrite ?called_probed, ?returned_probed
       by first [apply at_stage_probe; discriminate | probes];
     cbn [called returned call thrown logged is_thrown
          at_stage stage_of Stage_eqb andb orb negb app]).

Ltac read_stages_in H :=
  rewrite <- ?app_assoc in H; cbn [app] in H;
  repeat progress
    (rewrite ?called_app, ?returned_app in H;
     rewrite ?called_setup, ?returned_setup in H by apply at_stage_setup;
     rewrite ?called_probed, ?returned_probed in H
       by first [apply at_stage_probe; discriminate | probes];
     cbn [called returned call thrown logged is_thrown
          at_stage stage_of Stage_eqb andb orb negb app] in H).

Ltac reach :=
  lazymatch goal with
  | |- _ -> _ =>
      let H := fresh "H" in
      intros H;
      first [ solve [read_stages; reflexivity]
            | read_stages_in H; discriminate H ]
  | |- _ => read_stages; reflexivity
  end.

(** X14: in every run, a stage is attempted only after the stage before
    it returned.  For the handler with the battery the stages are
    [executablePath], [launch], [newContext], [newPage],
    [setDefaultNavigationTimeout], [goto], [waitForSelector],
    [screenshot], [readFile], [send] and the probes, and it never calls
    [page.$] or [fs.access]; for the handler of [src/index.ts] they are
    the same up to [waitForSelector], then [page.$], [screenshot],
    [access], [readFile] and [send], and it never probes. *)
Theorem stages_are_gated (w : World.t) (event : Json) :
  (gated (Validated.calls w event) VALIDATED_STAGES /\
   called (at_stage querying) (Validated.calls w event) = false /\
   called (at_stage accessing) (Validated.calls w event) = false) /\
  (gated (Index.calls w event) INDEX_STAGES /\
   called (at_stage probing) (Index.calls w event) = false).
Proof.
  split.
  - run_validated w event.
    all: rewrite <- ?app_assoc; cbn [app gated VALIDATED_STAGES]; conj; try exact I.
    all: reach.
  - run_index w event.
    all: rewrite <- ?app_assoc; cbn [app gated INDEX_STAGES]; conj; try exact I.
    all: reach.
Qed.

(** ** The constants of [src/utils/constants.ts] in a run *)

Lemma called_in (p : Call -> bool) (tr : list Event) (ev : Event) :
  called p tr = false -> In ev tr -> p (call ev) = false.
Proof.
  induction tr as [|ev' tr IH]; cbn [called In]; [intros _ []|].
  intros H [<-|Hin].
  - destruct (p (call ev')); [discriminate H | reflexivity].
  - apply IH; [|exact Hin]. destruct (called p tr); [|reflexivity].
    rewrite orb_true_r in H. discriminate H.
Qed.

Lemma is_impatient_setup (c : Call) : is_setup c = true -> is_impatient c = false.
Proof. destruct c; intros H; (discriminate H || reflexivity). Qed.

Lemma patient_probed (ps : list (Call * Outcome unit)) :
  Forall (fun cp => is_impatient (fst cp) = false) ps ->
  called is_impatient (probed ps) = false.
Proof.
  intros Hps. apply called_none.
  exact (probed_calls ps (fun c => is_impatient c = false) Hps).
Qed.

Ltac read_waits :=
  rewrite <- ?app_assoc; cbn [app];
  repeat progress
    (rewrite ?called_app;
     rewrite ?called_setup by apply is_impatient_setup;
     rewrite ?patient_probed by (repeat constructor);
     cbn [called call logged orb app]).

(** X15: every call of a run that takes a timeout (the default navigation
    timeout, [goto], [waitForSelector] and the eight probes) is given 60000
    milliseconds. *)
Theorem every_wait_is_bounded (w : World.t) (event : Json) (ev : Event) (t : Z) :
  In ev (Validated.calls w event) \/ In ev (Index.calls w event) ->
  timeout_of (call ev) = Some t ->
  t = 60000.
Proof.
  assert (HV : called is_impatient (Validated.calls w event) = false).
  { run_validated w event. all: read_waits. all: reflexivity. }
  assert (HI : called is_impatient (Index.calls w event) = false).
  { run_index w event. all: read_waits. all: reflexivity. }
  intros Hin Ht.
  assert (Hev : is_impatient (call ev) = false).
  { destruct Hin as [Hin|Hin].
    - exact (called_in is_impatient _ ev HV Hin).
    - exact (called_in is_impatient _ ev HI Hin). }
  unfold is_impatient in Hev. rewrite Ht in Hev.
  apply negb_false_iff, Z.eqb_eq in Hev. exact Hev.
Qed.

Lemma every_wait_is_bounded_witness : TIMEOUT_NAVIGATION = 60000.
Proof.
  apply (every_wait_is_bounded calm no_event
           (logged (page_goto PARAMETERS.url "domcontentloaded" TIMEOUT_NAVIGATION) None)).
  - left. vm_compute. do 11 right. left. reflexivity.
  - reflexivity.
Defined.

Ltac read_config :=
  rewrite <- ?app_assoc; cbn [app];
  repeat progress
    (rewrite ?select_app;
     rewrite ?select_setup by disjoint;
     rewrite ?select_probed_none by first [disjoint | probes];
     cbn [select call logged is_launch is_newContext app]).

Ltac read_config_in H :=
  rewrite <- ?app_assoc in H; cbn [app] in H;
  repeat progress
    (rewrite ?select_app in H;
     rewrite ?select_setup in H by disjoint;
     rewrite ?select_probed_none in H by first [disjoint | probes];
     cbn [select call logged is_launch is_newContext app] in H).

(** X16: in every run of either handler the browser is launched at most
    once, with the arguments of [chromium.args] followed by the seven flags
    of [BROWSER_ARGS] and with the path [chromium.executablePath()]
    returned; a context is created with the 1280 by 720 viewport and the
    user agent of the constants. *)
Theorem browser_configuration (w : World.t) (event : Json) :
  configured w (Validated.calls w event) /\ configured w (Index.calls w event).
Proof.
  unfold configured. split.
  - run_validated w event.
    all: rewrite <- ?app_assoc; cbn [app].
    all: conj;
      [ intros args path o Hin;
        pose proof (in_select is_launch _ _ Hin eq_refl) as Hsel; clear Hin;
        read_config_in Hsel
      | intros viewport userAgent o Hin;
        pose proof (in_select is_newContext _ _ Hin eq_refl) as Hsel; clear Hin;
        read_config_in Hsel
      | read_config; cbn [length]; lia ].
    all: try (destruct Hsel; fail).
    all: destruct Hsel as [Heq|[]]; injection Heq as <- <- _.
    all: split; first [reflexivity | assumption].
  - run_index w event.
    all: rewrite <- ?app_assoc; cbn [app].
    all: conj;
      [ intros args path o Hin;
        pose proof (in_select is_launch _ _ Hin eq_refl) as Hsel; clear Hin;
        read_config_in Hsel
      | intros viewport userAgent o Hin;
        pose proof (in_select is_newContext _ _ Hin eq_refl) as Hsel; clear Hin;
        read_config_in Hsel
      | read_config; cbn [length]; lia ].
    all: try (destruct Hsel; fail).
    all: destruct Hsel as [Heq|[]]; injection Heq as <- <- _.
    all: split; first [reflexivity | assumption].
Qed.

(** ** The timestamp of the file name *)

Lemma replace_colon_period_idempotent (c : ascii) :
  replace_colon_period (replace_colon_period c) = replace_colon_period c.
Proof.
  unfold replace_colon_period at 2 3.
  destruct (bool_decide (c = ":"%char) || bool_decide (c = "."%char)) eqn:Hc.
  - reflexivity.
  - unfold replace_colon_period. rewrite Hc. reflexivity.
Qed.

(** X17: [replace(/[:.]/g, "-")] keeps the length of the string; it puts
    a hyphen where there was a colon or a period and keeps every other
    character; applying it twice is applying it once; and it leaves a
    string as it is exactly when the string has no colon and no period. *)
Theorem timestamp_is_sanitised (s : string) :
  String.length (replace_colons_periods s) = String.length s /\
  (forall n, String.get n (replace_colons_periods s)
             = match String.get n s with
               | Some c => Some (if bool_decide (c = ":"%char \/ c = "."%char)
                                 then "-"%char else c)
               | None => None
               end) /\
  replace_colons_periods (replace_colons_periods s) = replace_colons_periods s /\
  (replace_colons_periods s = s <->
   forall c, In c (list_ascii_of_string s) -> c <> ":"%char /\ c <> "."%char).
Proof.
  split; [apply replace_colons_periods_length|].
  split.
  { intros n. rewrite replace_colons_periods_get.
    destruct (String.get n s) as [c|]; [|reflexivity].
    cbn [fmap option_fmap option_map]. f_equal. unfold replace_colon_period.
    destruct (bool_decide_reflect (c = ":"%char)) as [->|H1]; [reflexivity|].
    destruct (bool_decide_reflect (c = "."%char)) as [->|H2]; [reflexivity|].
    cbn [orb]. rewrite bool_decide_eq_false_2; [reflexivity|]. intros [|]; contradiction. }
  split.
  { induction s as [|c s IH]; cbn [replace_colons_periods]; [reflexivity|].
    rewrite replace_colon_period_idempotent, IH. reflexivity. }
  split.
  - intros H c Hin. rewrite <- H in Hin.
    exact (replace_colons_periods_clean s c Hin).
  - induction s as [|c s IH]; cbn [replace_colons_periods list_ascii_of_string In];
      [reflexivity|].
    intros H. f_equal.
    + destruct (H c (or_introl eq_refl)) as [H1 H2].
      unfold replace_colon_period.
      rewrite !bool_decide_eq_false_2 by assumption. reflexivity.
    + apply IH. intros c' Hin. apply H. right. exact Hin.
Qed.

(** ** The results of a fatal run *)

(** X18: a run of the handler with the battery that ends with status
    500 reports at most three results: the fatal entry alone when the
    page was not reached, after the navigation entry when the component
    was not located, and after the navigation and location entries when
    [waitForSelector] returned (the component was [null], or the capture
    or the upload failed); the message is that of the fatal entry. *)
Theorem fatal_results_shape (w : World.t) (event : Json) :
  Validated.statusCode (Validated.final w event) = 500 ->
  exists e,
    Validated.message (Validated.final w event) = "Fatal error: " +:+ Error.message e /\
    (Validated.testResults (Validated.final w event) = [fatal_entry e] \/
     (exists navigate,
        Validated.testResults (Validated.final w event)
        = [navigate_entry navigate; fatal_entry e]) \/
     (exists navigate locate,
        Validated.testResults (Validated.final w event)
        = [navigate_entry navigate; locate_entry locate; fatal_entry e])) /\
    (returned is_goto (Validated.calls w event) = false <->
     Validated.testResults (Validated.final w event) = [fatal_entry e]) /\
    (returned is_waitForSelector (Validated.calls w event) = true <->
     length (Validated.testResults (Validated.final w event)) = 3%nat).
Proof.
  run_validated w event.
  all: intros Hs; try discriminate Hs.
  all: eexists; split; [reflexivity|].
  all: split;
    [ first [ left; reflexivity
            | right; left; eexists; reflexivity
            | right; right; eexists _, _; reflexivity ] |].
  all: read_log.
  all: split; split; intros H; first [reflexivity | discriminate H].
Qed.

Lemma fatal_results_shape_witness :
  exists e,
    Validated.message (Validated.final no_page no_event) = "Fatal error: " +:+ Error.message e /\
    (Validated.testResults (Validated.final no_page no_event) = [fatal_entry e] \/
     (exists navigate,
        Validated.testResults (Validated.final no_page no_event)
        = [navigate_entry navigate; fatal_entry e]) \/
     (exists navigate locate,
        Validated.testResults (Validated.final no_page no_event)
        = [navigate_entry navigate; locate_entry locate; fatal_entry e])) /\
    (returned is_goto (Validated.calls no_page no_event) = false <->
     Validated.testResults (Validated.final no_page no_event) = [fatal_entry e]) /\
    (returned is_waitForSelector (Validated.calls no_page no_event) = true <->
     length (Validated.testResults (Validated.final no_page no_event)) = 3%nat).
Proof.
  apply (fatal_results_shape no_page no_event). vm_compute. reflexivity.
Defined.

(** * The deployment script *)

(** ** Rules of its monad *)

Section DeployRules.
Import Deploy.
Implicit Types s : Deploy.State.

Lemma dwp_ret {A} (a : A) s Q : Q (Returned a) s -> dwp (Deploy.ret a) s Q.
Proof. exact (fun H => H). Qed.

Lemma dwp_bind {A B} (c : D A) (k : A -> D B) s Q :
  dwp c s (fun r s' =>
             match r with
             | Returned a => dwp (k a) s' Q
             | Thrown e => Q (Thrown e) s'
             | Exited code => Q (Exited code) s'
             end) ->
  dwp (Deploy.bind c k) s Q.
Proof. unfold dwp, Deploy.bind. destruct (c s) as [[a|e|code] s']; exact (fun H => H). Qed.

Lemma dwp_try_catch {A} (body : D A) (handler : Error.t -> D A) s Q :
  dwp body s (fun r s' =>
                match r with
                | Returned a => Q (Returned a) s'
                | Thrown e => dwp (handler e) s' Q
                | Exited code => Q (Exited code) s'
                end) ->
  dwp (Deploy.try_catch body handler) s Q.
Proof.
  unfold dwp, Deploy.try_catch. destruct (body s) as [[a|e|code] s']; exact (fun H => H).
Qed.

Lemma dwp_invoke {A} (c : Deploy.Call) (o : Outcome A) (t : nat) (past : list Deploy.Event) Q :
  (forall e, o = inl e ->
     Q (Thrown e) (Deploy.mkState t (rev (Deploy.logged c (Some e) :: past)))) ->
  (forall a, o = inr a ->
     Q (Returned a) (Deploy.mkState t (rev (Deploy.logged c None :: past)))) ->
  dwp (Deploy.invoke c o) (Deploy.mkState t (rev past)) Q.
Proof.
  unfold dwp, Deploy.invoke. destruct o as [e|a]; intros He Ha; [apply He | apply Ha];
    reflexivity.
Qed.

Lemma dwp_perform {A} (c : Deploy.Call) (a : A) (t : nat) (past : list Deploy.Event) Q :
  Q (Returned a) (Deploy.mkState t (rev (Deploy.logged c None :: past))) ->
  dwp (perform c a) (Deploy.mkState t (rev past)) Q.
Proof. exact (fun H => H). Qed.

Lemma dwp_exit {A} (code : Z) (t : nat) (past : list Deploy.Event)
    (Q : Completion A -> Deploy.State -> Prop) :
  Q (Exited code) (Deploy.mkState t (rev (Deploy.logged (process_exit code) None :: past))) ->
  dwp (exit code) (Deploy.mkState t (rev past)) Q.
Proof. exact (fun H => H). Qed.

Lemma dwp_getTime (w : Deploy.World.t) (t : nat) (past : list Deploy.Event) Q :
  Q (Returned (Deploy.World.getTime w t)) (Deploy.mkState (S t) (rev past)) ->
  dwp (getTime w) (Deploy.mkState t (rev past)) Q.
Proof. exact (fun H => H). Qed.

Lemma script_dwp (w : Deploy.World.t) (P : Completion unit * Deploy.State -> Prop) :
  dwp (script w) (Deploy.mkState 0 (rev [])) (fun r s => P (r, s)) -> P (run w).
Proof. unfold dwp, run. cbn [rev]. destruct (script w _). exact (fun H => H). Qed.
End DeployRules.

(** The log of a run is kept as the reversal of the list of the events so
    far, latest first, so that a step adds one event at its head. *)
Ltac deploy_step :=
  lazymatch goal with
  | |- Deploy.dwp (Deploy.bind _ _) _ _ => apply dwp_bind
  | |- Deploy.dwp (Deploy.ret _) _ _ => apply dwp_ret
  | |- Deploy.dwp (Deploy.try_catch _ _) _ _ => apply dwp_try_catch
  | |- Deploy.dwp (Deploy.perform _ _) _ _ => apply dwp_perform
  | |- Deploy.dwp (Deploy.exit _) _ _ => apply dwp_exit
  | |- Deploy.dwp (Deploy.getTime _) _ _ => apply dwp_getTime
  | |- Deploy.dwp (Deploy.invoke _ _) _ _ =>
      apply dwp_invoke;
      [ let e := fresh "e" in let H := fresh "Hthrown" in intros e H
      | let a := fresh "a" in let H := fresh "Hreturned" in intros a H ]
  | |- Deploy.dwp (if negb ?b then _ else _) _ _ =>
      let H := fresh "Hif" in destruct b eqn:H; cbn [negb andb]
  | |- Deploy.dwp (if ?b then _ else _) _ _ =>
      let H := fresh "Hif" in destruct b eqn:H; cbn [negb andb]
  | |- Deploy.dwp ?c _ _ => let h := head_of c in unfold h
  end.

Ltac deploy_run w :=
  unfold Deploy.exit_code, Deploy.calls;
  pattern (Deploy.run w);
  lazymatch goal with
  | |- ?P _ =>
      let Q := fresh "Q" in
      set (Q := P); apply script_dwp;
      repeat deploy_step;
      subst Q; cbv beta; cbn [fst snd Deploy.log Deploy.ticks rev app]
  end.

(** Use what the path says about the world. *)
Ltac settle :=
  unfold Deploy.deploys, Deploy.succeeds, Deploy.copy_failure, Deploy.confirmed;
  repeat match goal with
         | H : _ = _ |- _ => rewrite H; clear H
         end;
  cbn [negb andb orb error_of].

(** ** The commands *)


(** X20: a command that failed is what the world says it is; unless it
    is the description of the repository, it is the last command the run
    executed, and the process ended with code 1. *)
Theorem a_failed_command_ends_the_run (w : Deploy.World.t) (command : string) (e : Error.t) :
  In (command, e) (Deploy.failures (Deploy.calls w)) ->
  Deploy.World.execSync w command = inl e /\
  (command = Deploy.describeCommand w \/
   (last (Deploy.executed (Deploy.calls w)) = Some command /\
    fst (Deploy.run w) = Deploy.Exited 1)).
Proof.
  deploy_run w.
  all: cbn [Deploy.failures Deploy.executed Deploy.call Deploy.thrown Deploy.logged In last].
  all: intros Hin.
  all: repeat match type of Hin with
              | _ \/ _ => destruct Hin as [Hin|Hin]
              | False => destruct Hin
              end.
  all: injection Hin as <- <-.
  all: (split; [assumption|]).
  all: first [left; reflexivity | right; split; reflexivity].
Qed.

Lemma a_failed_command_ends_the_run_witness :
  Deploy.World.execSync Deploy.refused (Deploy.pushCommand Deploy.refused)
  = inl (Error.mk "denied: not authorized") /\
  (Deploy.pushCommand Deploy.refused = Deploy.describeCommand Deploy.refused \/
   (last (Deploy.executed (Deploy.calls Deploy.refused))
    = Some (Deploy.pushCommand Deploy.refused) /\
    fst (Deploy.run Deploy.refused) = Deploy.Exited 1)).
Proof.
  apply (a_failed_command_ends_the_run Deploy.refused).
  vm_compute. left. reflexivity.
Defined.

(** ** How the process ends *)


(** X22: the user is asked whether to continue exactly when the
    credentials check, the build and the login succeeded and the
    description of the repository failed. *)
Theorem question_is_asked_when_describe_fails (w : Deploy.World.t) :
  Deploy.called Deploy.is_question (Deploy.calls w)
  = (bool_decide (Deploy.copy_failure w = None)
     && Deploy.succeeds w Deploy.awsCheckCommand
     && Deploy.succeeds w (Deploy.dockerBuildCommand w)
     && Deploy.succeeds w (Deploy.loginCommand w)
     && negb (Deploy.succeeds w (Deploy.describeCommand w))).
Proof.
  deploy_run w.
  all: cbn [Deploy.called Deploy.call Deploy.logged Deploy.is_question orb].
  all: settle.
  all: reflexivity.
Qed.



(** X24: the function is updated exactly when [UPDATE_LAMBDA] is the
    string [true] and every step before it went through. *)
Theorem lambda_update_is_opt_in (w : Deploy.World.t) :
  Deploy.ran Deploy.updateCommand (Deploy.calls w)
  = (bool_decide (Deploy.World.env w !! "UPDATE_LAMBDA" = Some "true")
     && bool_decide (Deploy.copy_failure w = None)
     && Deploy.succeeds w Deploy.awsCheckCommand
     && Deploy.succeeds w (Deploy.dockerBuildCommand w)
     && Deploy.succeeds w (Deploy.loginCommand w)
     && (Deploy.succeeds w (Deploy.describeCommand w) || Deploy.confirmed w)
     && Deploy.succeeds w (Deploy.tagCommand w)
     && Deploy.succeeds w (Deploy.pushCommand w)).
Proof.
  change (bool_decide (Deploy.World.env w !! "UPDATE_LAMBDA" = Some "true"))
    with (Deploy.UPDATE_LAMBDA w).
  unfold Deploy.ran.
  deploy_run w.
  all: cbn [Deploy.executed Deploy.call Deploy.logged existsb].
  all: settle.
  all: rewrite ?andb_false_r, ?String.eqb_refl, ?orb_true_r.
  all: reflexivity.
Qed.

(** ** What is written to the standard error *)

(** X25: a run writes to the standard error nothing, or the complaint
    about the credentials, or the message [executeCommand] was given for
    the last command executed followed by the message of the error of
    that command.  In particular the [catch] around the push and the
    outer [catch] of [main] never run. *)
Theorem stderr_of_a_run (w : Deploy.World.t) :
  Deploy.stderr (Deploy.calls w) = [] \/
  Deploy.stderr (Deploy.calls w)
  = [Deploy.console_error "No valid AWS credentials found. Please configure AWS CLI."] \/
  exists command errorMessage e,
    In (command, errorMessage) (Deploy.errorMessages w) /\
    Deploy.World.execSync w command = inl e /\
    last (Deploy.executed (Deploy.calls w)) = Some command /\
    Deploy.stderr (Deploy.calls w)
    = [Deploy.console_error errorMessage; Deploy.console_error (Error.message e)].
Proof.
  deploy_run w.
  all: cbn [Deploy.stderr Deploy.executed Deploy.call Deploy.logged last].
  all: first
    [ left; reflexivity
    | right; left; reflexivity
    | right; right; eexists _, _, _;
      split; [|split; [eassumption|split; reflexivity]];
      unfold Deploy.errorMessages; cbn [In];
      first [ left; reflexivity
            | right; left; reflexivity
            | right; right; left; reflexivity
            | right; right; right; left; reflexivity
            | right; right; right; right; left; reflexivity ] ].
Qed.

(** ** The Dockerfile *)

(** X26: the script copies a file only when [Dockerfile] is missing and
    [Dockerfile.example] exists, and then the one onto the other; when
    the copy throws, the exception is uncaught: no command is executed
    and [process.exit] is not called. *)
Theorem dockerfile_is_copied_when_missing (w : Deploy.World.t) :
  Deploy.copies (Deploy.calls w)
  = (if negb (Deploy.World.existsSync w (Deploy.World.DOCKERFILE_PATH w))
        && Deploy.World.existsSync w (Deploy.World.DOCKERFILE_PATH w +:+ ".example")
     then [(Deploy.World.DOCKERFILE_PATH w +:+ ".example", Deploy.World.DOCKERFILE_PATH w)]
     else []) /\
  (forall e, Deploy.copy_failure w = Some e ->
             fst (Deploy.run w) = Deploy.Thrown e /\
             Deploy.executed (Deploy.calls w) = [] /\
             Deploy.called Deploy.is_exit (Deploy.calls w) = false).
Proof.
  deploy_run w.
  all: cbn [Deploy.copies Deploy.executed Deploy.called Deploy.is_exit Deploy.call
            Deploy.logged orb].
  all: settle.
  all: split; [reflexivity|].
  all: intros e' He'; first [discriminate He' | injection He' as <-; conj; reflexivity].
Qed.
